(** * cfg2toml.processing: post-processing and type casting operations

    A shallow embedding of [src/cfg2toml/processing.py] and the properties
    of its value processors, intermediate representations and appliers.

    Layout: Python's string built-ins ([Str]), exceptions and the error
    monad, the two collaborating modules that the file imports ([access]
    and [toml_adapter]), the code of [processing.py] itself, the
    vocabulary of the statements, and then the lemmas and theorems. *)

From Stdlib Require Import ZArith NArith String Ascii List Bool Lia.
From Stdlib Require PrimFloat.
From stdpp Require Import base option list gmap strings.

#[local] Open Scope string_scope.
#[local] Open Scope list_scope.
#[local] Set Warnings "-register-all".

(* ================================================================== *)
(** ** Python's [str] built-ins

    A text is a [string]: the character [ascii] with code [n] stands for the
    code point U+00n, so the texts covered are those whose code points are
    below 256.  Each function follows the documented behaviour of the
    method of the same name on such texts. *)
(* ================================================================== *)

Module Str.

Definition code (c : ascii) : N := N_of_ascii c.

(** [str.isspace] on one character: U+0009..U+000D, U+001C..U+0020,
    U+0085 and U+00A0. *)
Definition isspace (c : ascii) : bool :=
  let n := code c in
  ((9 <=? n) && (n <=? 13) || (28 <=? n) && (n <=? 32)
   || (n =? 133) || (n =? 160))%N.

(** The line boundaries of [str.splitlines]: LF, VT, FF, CR, FS, GS, RS
    and NEL (CR LF counts as one boundary, see [splitlines]). *)
Definition islinebreak (c : ascii) : bool :=
  let n := code c in
  ((10 <=? n) && (n <=? 13) || (28 <=? n) && (n <=? 30) || (n =? 133))%N.

Definition CR : ascii := ascii_of_N 13.
Definition LF : ascii := ascii_of_N 10.

(** [c in s] for a single character [c]. *)
Fixpoint has_char (c : ascii) (s : string) : bool :=
  match s with
  | EmptyString => false
  | String d s' => Ascii.eqb c d || has_char c s'
  end.

(** [s.startswith(p)]. *)
Fixpoint startswith (s p : string) : bool :=
  match p, s with
  | EmptyString, _ => true
  | String _ _, EmptyString => false
  | String a p', String b s' => Ascii.eqb a b && startswith s' p'
  end.

(** [sub in s] for a text [sub]. *)
Fixpoint contains (sub s : string) : bool :=
  startswith s sub
  || match s with
     | EmptyString => false
     | String _ s' => contains sub s'
     end.

(** [s.lstrip(chars)]: drop the leading characters that occur in [chars]. *)
Fixpoint lstrip_chars (chars s : string) : string :=
  match s with
  | EmptyString => EmptyString
  | String c s' => if has_char c chars then lstrip_chars chars s' else s
  end.

(** [s.lstrip()]. *)
Fixpoint lstrip (s : string) : string :=
  match s with
  | EmptyString => EmptyString
  | String c s' => if isspace c then lstrip s' else s
  end.

(** [s.rstrip()]. *)
Fixpoint rstrip (s : string) : string :=
  match s with
  | EmptyString => EmptyString
  | String c s' =>
      match rstrip s' with
      | EmptyString => if isspace c then EmptyString else String c EmptyString
      | r => String c r
      end
  end.

(** [s.strip()]. *)
Definition strip (s : string) : string := rstrip (lstrip s).

(** [str.lower] on one character: A..Z, and U+00C0..U+00DE but U+00D7. *)
Definition lower_char (c : ascii) : ascii :=
  let n := code c in
  if ((65 <=? n) && (n <=? 90)
      || (192 <=? n) && (n <=? 222) && negb (n =? 215))%N
  then ascii_of_N (n + 32) else c.

Fixpoint lower (s : string) : string :=
  match s with
  | EmptyString => EmptyString
  | String c s' => String (lower_char c) (lower s')
  end.

Definition isdigit_char (c : ascii) : bool :=
  let n := code c in ((48 <=? n) && (n <=? 57))%N.

Fixpoint all_digits (s : string) : bool :=
  match s with
  | EmptyString => true
  | String c s' => isdigit_char c && all_digits s'
  end.

(** [s.isdecimal()]: at least one character, all of them decimal digits. *)
Definition isdecimal (s : string) : bool :=
  match s with
  | EmptyString => false
  | _ => all_digits s
  end.

(** [s.count(c)] for a one-character pattern. *)
Fixpoint count_char (c : ascii) (s : string) : nat :=
  match s with
  | EmptyString => 0
  | String d s' => (if Ascii.eqb c d then 1 else 0) + count_char c s'
  end.

Fixpoint drop (n : nat) (s : string) : string :=
  match n, s with
  | O, _ => s
  | S _, EmptyString => EmptyString
  | S n', String _ s' => drop n' s'
  end.

(** The text before and the text after the first occurrence of a
    non-empty [sep] in [s]; [None] when [sep] does not occur. *)
Fixpoint partition (sep s : string) : option (string * string) :=
  if startswith s sep then Some (EmptyString, drop (String.length sep) s)
  else match s with
       | EmptyString => None
       | String c s' =>
           match partition sep s' with
           | Some (before, after) => Some (String c before, after)
           | None => None
           end
       end.

(** [s.split(sep, maxsplit)] for a non-empty [sep]; [maxsplit = None] is
    Python's default of -1 (no limit).  Every cut consumes a character,
    so [length s] rounds of [partition] reach the end of the text. *)
Fixpoint split_fuel (fuel : nat) (sep : string) (maxsplit : option nat)
    (s : string) : list string :=
  match fuel, maxsplit with
  | O, _ | _, Some O => [s]
  | S fuel', _ =>
      match partition sep s with
      | None => [s]
      | Some (before, after) =>
          before :: split_fuel fuel' sep (Nat.pred <$> maxsplit) after
      end
  end.

Definition split_nonempty (sep : string) (maxsplit : option nat)
    (s : string) : list string :=
  split_fuel (String.length s) sep maxsplit s.

Fixpoint join (sep : string) (parts : list string) : string :=
  match parts with
  | [] => EmptyString
  | [p] => p
  | p :: ps => p ++ sep ++ join sep ps
  end.

Fixpoint interleave (new s : string) : string :=
  match s with
  | EmptyString => new
  | String c s' => new ++ String c (interleave new s')
  end.

(** [s.replace(old, new)]. *)
Definition replace (old new s : string) : string :=
  match old with
  | EmptyString => interleave new s
  | _ => join new (split_nonempty old None s)
  end.

(** [s.splitlines()]: a line boundary ends the current line; a CR LF
    pair is one boundary; no empty last line after a final boundary. *)
Fixpoint splitlines (s : string) : list string :=
  match s with
  | EmptyString => []
  | String c s' =>
      if islinebreak c then
        EmptyString ::
          match s' with
          | String d s'' =>
              if Ascii.eqb c CR && Ascii.eqb d LF then splitlines s''
              else splitlines s'
          | EmptyString => []
          end
      else
        match splitlines s' with
        | [] => [String c EmptyString]
        | l :: ls => String c l :: ls
        end
  end.

Fixpoint chars (s : string) : list ascii :=
  match s with
  | EmptyString => []
  | String c s' => c :: chars s'
  end.

Definition digit_value (c : ascii) : Z := Z.of_N (code c) - 48.

(** [int(s)] for a text of decimal digits (the interpreter's limit on the
    number of digits, where it has one, is left out). *)
Definition int_of_digits (s : string) : Z :=
  fold_left (fun acc c => 10 * acc + digit_value c)%Z (chars s) 0%Z.

Definition is_empty (s : string) : bool :=
  match s with EmptyString => true | _ => false end.

End Str.

(* ================================================================== *)
(** ** Exceptions and the error monad *)
(* ================================================================== *)

(** The exception classes that the code raises or lets through.  The
    messages of raised exceptions are not modelled.  [KeyboardInterrupt]
    and [SystemExit] derive from [BaseException] only, so that
    [except Exception] does not catch them. *)
Inductive exn : Type :=
| KeyError
| ValueError
| IndexError
| TypeError
| OtherException (class_name : string)
| KeyboardInterrupt
| SystemExit.

(** [isinstance(e, Exception)]. *)
Definition isinstance_Exception (e : exn) : bool :=
  match e with
  | KeyboardInterrupt | SystemExit => false
  | _ => true
  end.

Inductive outcome (A : Type) : Type :=
| Return (a : A)
| Raise (e : exn).
Arguments Return {A} a.
Arguments Raise {A} e.

Definition bind {A B : Type} (m : outcome A) (k : A -> outcome B) : outcome B :=
  match m with
  | Return a => k a
  | Raise e => Raise e
  end.

Notation "'let*' x ':=' m 'in' k" := (bind m (fun x => k))
  (at level 10, x pattern, m at level 100, k at level 200).

(** A list comprehension whose body may raise: elements are computed from
    left to right and the first exception ends the comprehension. *)
Fixpoint mapM {A B : Type} (f : A -> outcome B) (l : list A) : outcome (list B) :=
  match l with
  | [] => Return []
  | x :: xs =>
      let* y := f x in
      let* ys := mapM f xs in
      Return (y :: ys)
  end.

(** [s.split(sep, maxsplit)]: an empty separator is a [ValueError]. *)
Definition str_split (s sep : string) (maxsplit : option nat) : outcome (list string) :=
  if Str.is_empty sep then Raise ValueError
  else Return (Str.split_nonempty sep maxsplit s).

(* ================================================================== *)
(** ** [toml_adapter]: the document nodes *)
(* ================================================================== *)

Module toml_adapter.

(** Modelled from the spec: [toml_adapter] is imported by
    [processing.py] but is not among the sources.  An item is a value
    together with the trailing comment attached to it ("nodes expose an
    operation to attach a trailing comment"), or a full-line comment
    "with no value". *)
Inductive Item (T : Type) : Type :=
| Value (v : T) (trailing : option string)
| Comment (text : string).
Arguments Value {T} v trailing.
Arguments Comment {T} text.

(** Modelled from the spec: [item(value)], a node with no comment yet. *)
Definition item {T} (v : T) : Item T := Value v None.

(** Modelled from the spec: [comment(text)], a standalone comment entry. *)
Definition comment {T} (text : string) : Item T := Comment text.

(** Modelled from the spec: [node.comment(text)] on an item. *)
Definition item_comment {T} (it : Item T) (text : string) : Item T :=
  match it with
  | Value v _ => Value v (Some text)
  | Comment _ => Comment text
  end.

(** Modelled from the spec: an array node ("single-line array" or
    multi-line), its elements in order, and the comment attached "to the
    whole node". *)
Record Array (T : Type) : Type := mkArray {
  arr_multiline : bool;
  arr_body : list (Item T);
  arr_comment : option string
}.
Arguments mkArray {T}.
Arguments arr_multiline {T}.
Arguments arr_body {T}.
Arguments arr_comment {T}.

(** Modelled from the spec: [array()]. *)
Definition array {T} : Array T := mkArray false [] None.

(** Modelled from the spec: [a.multiline(flag)]. *)
Definition array_multiline {T} (a : Array T) (flag : bool) : Array T :=
  mkArray flag (arr_body a) (arr_comment a).

(** Modelled from the spec: [a.append(x)]; a plain value is appended as
    [item x], an item as it is. *)
Definition array_append {T} (a : Array T) (it : Item T) : Array T :=
  mkArray (arr_multiline a) (arr_body a ++ [it]) (arr_comment a).

(** Modelled from the spec: [a.comment(text)]. *)
Definition array_comment {T} (a : Array T) (text : string) : Array T :=
  mkArray (arr_multiline a) (arr_body a) (Some text).

(** Modelled from the spec: a table node (a multi-line table, or an
    inline table), its entries in order, each a key with its item or a
    standalone comment entry under no key, and the comment attached to
    the whole node. *)
Record Table (T : Type) : Type := mkTable {
  tbl_inline : bool;
  tbl_body : list (option string * Item T);
  tbl_comment : option string
}.
Arguments mkTable {T}.
Arguments tbl_inline {T}.
Arguments tbl_body {T}.
Arguments tbl_comment {T}.

(** Modelled from the spec: [table()] and [inline_table()]. *)
Definition table {T} : Table T := mkTable false [] None.
Definition inline_table {T} : Table T := mkTable true [] None.

Definition is_key {T} (k : string) (e : option string * Item T) : bool :=
  match e.1 with
  | Some k' => String.eqb k k'
  | None => false
  end.

(** Modelled from the spec: [k in t]. *)
Definition table_contains {T} (t : Table T) (k : string) : bool :=
  existsb (is_key k) (tbl_body t).

(** Modelled from the spec: [t[k]], the item stored under key [k]. *)
Definition table_getitem {T} (t : Table T) (k : string) : option (Item T) :=
  snd <$> find (is_key k) (tbl_body t).

Fixpoint body_set {T} (k : string) (it : Item T)
    (body : list (option string * Item T)) : list (option string * Item T) :=
  match body with
  | [] => [(Some k, it)]
  | e :: rest =>
      if is_key k e then (Some k, it) :: rest
      else e :: body_set k it rest
  end.

(** Modelled from the spec: [t[k] = item]; "later entries overwrite
    earlier keys sharing the same name", a new key goes last. *)
Definition table_setitem {T} (t : Table T) (k : string) (it : Item T) : Table T :=
  mkTable (tbl_inline t) (body_set k it (tbl_body t)) (tbl_comment t).

(** Modelled from the spec: [t.append(None, item)]. *)
Definition table_append {T} (t : Table T) (it : Item T) : Table T :=
  mkTable (tbl_inline t) (tbl_body t ++ [(None, it)]) (tbl_comment t).

(** Modelled from the spec: [t.comment(text)]. *)
Definition table_comment {T} (t : Table T) (text : string) : Table T :=
  mkTable (tbl_inline t) (tbl_body t) (Some text).

End toml_adapter.
Import toml_adapter.

(* ================================================================== *)
(** ** The values stored in a container *)
(* ================================================================== *)

(** The Python objects a configuration container holds: the plain values
    read from the legacy file or returned by a transformation, nested
    mappings, and the document nodes written by [_add_to_container]. *)
Inductive pyvalue : Type :=
| PyNone
| PyBool (b : bool)
| PyInt (n : Z)
| PyFloat (x : PrimFloat.float)
| PyStr (s : string)
| PyList (xs : list pyvalue)
| PyDict (m : gmap string pyvalue)
| TomlItem (it : Item pyvalue)
| TomlArray (a : Array pyvalue)
| TomlTable (t : Table pyvalue).

(** [type(v).__name__]; a node is named by the adapter class it is
    imported under. *)
Definition class_name (v : pyvalue) : string :=
  match v with
  | PyNone => "NoneType"
  | PyBool _ => "bool"
  | PyInt _ => "int"
  | PyFloat _ => "float"
  | PyStr _ => "str"
  | PyList _ => "list"
  | PyDict _ => "dict"
  | TomlItem _ => "Item"
  | TomlArray _ => "Array"
  | TomlTable t => if tbl_inline t then "InlineTable" else "Table"
  end.

(** [bool(v)].  For a node the adapter decides: here an array and a table
    count as the sequence and the mapping that [as_toml_obj] uses them as,
    falsy when they hold nothing, and an item counts as the value in it. *)
Fixpoint truthy (v : pyvalue) : bool :=
  match v with
  | PyNone => false
  | PyBool b => b
  | PyInt n => negb (n =? 0)%Z
  | PyFloat x => negb (PrimFloat.eqb x PrimFloat.zero)
  | PyStr s => negb (Str.is_empty s)
  | PyList xs => match xs with [] => false | _ => true end
  | PyDict m => match map_to_list m with [] => false | _ => true end
  | TomlItem (Value v' _) => truthy v'
  | TomlItem (Comment _) => true
  | TomlArray a => match arr_body a with [] => false | _ => true end
  | TomlTable t => match tbl_body t with [] => false | _ => true end
  end.

(** [isinstance(v, MutableMapping)]: the mappings of this universe are the
    dictionaries.  A node that [_add_to_container] has stored is a leaf:
    no path is followed into it. *)
Definition isinstance_MutableMapping (v : pyvalue) : bool :=
  match v with
  | PyDict _ => true
  | _ => false
  end.

(* ================================================================== *)
(** ** [access] *)
(* ================================================================== *)

(** Modelled from the spec: [NOT_GIVEN] and [NotGiven] are imported from
    [access], which is not among the sources.  A value is "T | Absent":
    the marker [NOT_GIVEN] of an absent value, or a given value. *)
Inductive maybe_given (T : Type) : Type :=
| NOT_GIVEN
| Given (v : T).
Arguments NOT_GIVEN {T}.
Arguments Given {T} v.

(** Modelled from the spec: [get_nested] is imported from [access], which
    is not among the sources.  "All path segments [...] are resolved as
    nested-mapping lookups; if any intermediate segment is absent" the
    default is the result.  A segment looked up inside a value that is not
    a mapping is taken as absent. *)
Fixpoint get_nested (m : pyvalue) (keys : list string) (default : pyvalue) : pyvalue :=
  match keys with
  | [] => m
  | k :: ks =>
      match m with
      | PyDict d =>
          match d !! k with
          | Some v => get_nested v ks default
          | None => default
          end
      | _ => default
      end
  end.

(* ================================================================== *)
(** ** [processing.py]: helpers *)
(* ================================================================== *)

Definition CP : string := "#;".

Definition create_item {T} (value : T) (comment : option string) : Item T :=
  let obj := item value in
  match comment with
  | Some text => item_comment obj text
  | None => obj
  end.

(** [_split_in_2]: [next(items)] cannot fail, [str.split] never returns an
    empty list. *)
Definition _split_in_2 (v sep : string) : outcome (string * option string) :=
  let* items := str_split v sep (Some 1) in
  match items with
  | first :: rest => Return (first, head rest)
  | [] => Raise (OtherException "StopIteration")
  end.

Definition _strip_comment (msg : option string) (prefixes : string) : option string :=
  match msg with
  | None => None
  | Some msg =>
      if Str.is_empty msg then None
      else Some (Str.strip (Str.lstrip_chars prefixes (Str.strip msg)))
  end.

(** [toml_array[-1]] is an [IndexError] on an empty array.  The patch of
    [as_string] only changes how the element is printed. *)
Definition _add_comment_array_last_item {T} (toml_array : Array T) (cmt : string)
    : outcome (Array T) :=
  match last (arr_body toml_array) with
  | None => Raise IndexError
  | Some it =>
      Return (mkArray (arr_multiline toml_array)
                (removelast (arr_body toml_array) ++ [item_comment it cmt])
                (arr_comment toml_array))
  end.

(** The patches of [trivia.trail] and [value] only change how the comment
    is printed. *)
Definition _add_comment_array_entire_line {T} (toml_array : Array T) (cmt_msg : string)
    : Array T :=
  let cmt := comment cmt_msg in
  array_append toml_array cmt.

(* ================================================================== *)
(** ** Intermediate representations *)
(* ================================================================== *)

Module Commented.

Record t (T : Type) : Type := mk {
  value : maybe_given T;
  comment : option string
}.
Arguments mk {T}.
Arguments value {T}.
Arguments comment {T}.

Definition comment_only {T} (self : t T) : bool :=
  match value self with
  | NOT_GIVEN => true
  | Given _ => false
  end.

(** [bool(self.comment)]: neither [None] nor the empty text. *)
Definition has_comment {T} (self : t T) : bool :=
  match comment self with
  | Some text => negb (Str.is_empty text)
  | None => false
  end.

Definition value_or {T} (self : t T) (fallback : T) : T :=
  match value self with
  | NOT_GIVEN => fallback
  | Given v => v
  end.

Definition as_toml_obj (self : t pyvalue) (default_value : pyvalue) : Item pyvalue :=
  create_item (value_or self default_value) (comment self).

End Commented.

Module CommentedList.

(** The list held by [UserList] and the [comment] attribute. *)
Record t (T : Type) : Type := mk {
  data : list (Commented.t (list T));
  comment : option string
}.
Arguments mk {T}.
Arguments data {T}.
Arguments comment {T}.

(** [__init__]. *)
Definition init {T} (data : list (Commented.t (list T))) : t T := mk data None.

(** The [for entry in self.data] loop: the entries still to visit, the
    array built so far and the current [self.comment].  The result is
    the array returned and [self.comment] at that point. *)
Fixpoint as_toml_obj_loop {T} (multiline : bool)
    (entries : list (Commented.t (list T))) (out : Array T)
    (self_comment : option string) : outcome (Array T * option string) :=
  match entries with
  | [] => Return (out, self_comment)
  | entry :: rest =>
      let values := Commented.value_or entry [] in
      let out := fold_left (fun out value => array_append out (item value)) values out in
      match Commented.has_comment entry, Commented.comment entry with
      | true, Some cmt =>
          if negb multiline then
            Return (array_comment out cmt, Some cmt)
          else if (0 <? length values)%nat then
            let* out := _add_comment_array_last_item out cmt in
            as_toml_obj_loop multiline rest out self_comment
          else
            as_toml_obj_loop multiline rest
              (_add_comment_array_entire_line out cmt) self_comment
      | _, _ => as_toml_obj_loop multiline rest out self_comment
      end
  end.

(** [as_toml_obj]: the array, and [self] as the call leaves it. *)
Definition as_toml_obj {T} (self : t T) : outcome (Array T * t T) :=
  let out := array in
  let multiline := (1 <? length (data self))%nat in
  let out := array_multiline out multiline in
  let* result := as_toml_obj_loop multiline (data self) out (comment self) in
  let '(out, self_comment) := result in
  Return (out, mk (data self) self_comment).

End CommentedList.

Module CommentedKV.

Record t (T : Type) : Type := mk {
  data : list (Commented.t (list (string * T)));
  comment : option string
}.
Arguments mk {T}.
Arguments data {T}.
Arguments comment {T}.

Definition init {T} (data : list (Commented.t (list (string * T)))) : t T :=
  mk data None.

(** The inner loop [for value in values: k, v = value; out[k] = v],
    started with [k = None]: the table and the last key set. *)
Definition set_pairs {T} (out : Table T) (values : list (string * T))
    : Table T * option string :=
  fold_left (fun '(out, _) '(k, v) => (table_setitem out k (item v), Some k))
    values (out, None).

(** [if k:], for [k] either [None] or a key. *)
Definition key_truthy (k : option string) : bool :=
  match k with
  | Some k => negb (Str.is_empty k)
  | None => false
  end.

(** [out[k].comment(cmt)]: the item under [k] gets the comment. *)
Definition comment_at {T} (out : Table T) (k : string) (cmt : string)
    : outcome (Table T) :=
  match table_getitem out k with
  | None => Raise KeyError
  | Some it => Return (table_setitem out k (item_comment it cmt))
  end.

(** The [for entry in self.data] loop.  The values of an entry are its
    pairs: the placeholder [()] of a comment-only entry is dropped by
    the [if v] filter, and a pair is never falsy. *)
Fixpoint as_toml_obj_loop {T} (multiline : bool)
    (entries : list (Commented.t (list (string * T)))) (out : Table T)
    (self_comment : option string) : outcome (Table T * option string) :=
  match entries with
  | [] => Return (out, self_comment)
  | entry :: rest =>
      let values := Commented.value_or entry [] in
      let '(out, k) := set_pairs out values in
      match Commented.has_comment entry, Commented.comment entry with
      | true, Some cmt =>
          if negb multiline then
            Return (table_comment out cmt, Some cmt)
          else
            match key_truthy k, k with
            | true, Some k =>
                let* out := comment_at out k cmt in
                as_toml_obj_loop multiline rest out self_comment
            | _, _ =>
                as_toml_obj_loop multiline rest
                  (table_append out (toml_adapter.comment cmt)) self_comment
            end
      | _, _ => as_toml_obj_loop multiline rest out self_comment
      end
  end.

Definition as_toml_obj {T} (self : t T) : outcome (Table T * t T) :=
  let multiline := (1 <? length (data self))%nat in
  let out := if multiline then table else inline_table in
  let* result := as_toml_obj_loop multiline (data self) out (comment self) in
  let '(out, self_comment) := result in
  Return (out, mk (data self) self_comment).

End CommentedKV.

(* ================================================================== *)
(** ** Simple value processors *)
(* ================================================================== *)

Definition noop {T} (x : T) : T := x.

(** [value in (...)] for a tuple of texts. *)
Definition in_tuple (value : string) (options : list string) : bool :=
  existsb (String.eqb value) options.

Definition is_true (value : string) : bool :=
  let value := Str.lower value in
  in_tuple value ["true"; "1"; "yes"; "on"].

Definition is_false (value : string) : bool :=
  let value := Str.lower value in
  in_tuple value ["false"; "0"; "no"; "off"; "none"; "null"; "nil"].

Definition is_float (value : string) : bool :=
  let cleaned :=
    Str.replace "_" "" (Str.replace "." "" (Str.lstrip_chars "+-" (Str.lower value))) in
  Str.isdecimal cleaned && (Str.count_char "." value <=? 1)%nat
  || in_tuple cleaned ["inf"; "nan"].

Definition coerce_bool (value : string) : outcome bool :=
  if is_true value then Return true
  else if is_false value then Return false
  else Raise ValueError.

Section Scalars.

(** Python's [float(text)]: the float read from the text, or [None]
    where [float] raises [ValueError]. *)
Variable py_float : string -> option PrimFloat.float.

Definition coerce_scalar (value : string) : outcome pyvalue :=
  let value := Str.strip value in
  if Str.isdecimal value then Return (PyInt (Str.int_of_digits value))
  else if is_float value then
    match py_float value with
    | Some x => Return (PyFloat x)
    | None => Raise ValueError
    end
  else if is_true value then Return (PyBool true)
  else if is_false value then Return (PyBool false)
  else Return (PyStr value).

End Scalars.

Definition kebab_case (field : string) : string :=
  Str.replace "_" "-" (Str.lower field).

(* ================================================================== *)
(** ** Complex value processors

    The argument [value] is a text: the first statement of [split_comment]
    and of [split_list], which hands back an argument that is not a [str],
    has no counterpart here.  A coercion function is any function from a
    text that returns or raises. *)
(* ================================================================== *)

(** [split_comment].  The branch with [IndexError] stands for
    [prefixes[0]] on an empty list and is not reached: an empty
    [prefixes] takes the first branch. *)
Definition split_comment {T} (value : string) (coerce_fn : string -> outcome T)
    (comment_prefixes : string) : outcome (Commented.t T) :=
  let value := Str.strip value in
  let prefixes :=
    List.filter (fun p => Str.has_char p value) (Str.chars comment_prefixes) in
  if match prefixes with [] => true | _ => false end
     || (1 <? length (Str.splitlines value))%nat
  then
    let* v := coerce_fn value in
    Return (Commented.mk (Given v) None)
  else if existsb (fun p => Str.startswith value (String p EmptyString))
            (Str.chars comment_prefixes)
  then
    Return (Commented.mk NOT_GIVEN (_strip_comment (Some value) comment_prefixes))
  else
    match prefixes with
    | [] => Raise IndexError
    | prefix :: _ =>
        let* halves := _split_in_2 value (String prefix EmptyString) in
        let '(value, cmt) := halves in
        let* v := coerce_fn (Str.strip value) in
        Return (Commented.mk (Given v) (_strip_comment cmt comment_prefixes))
    end.

Definition split_scalar (py_float : string -> option PrimFloat.float)
    (value : string) (comment_prefixes : string) : outcome (Commented.t pyvalue) :=
  split_comment value (coerce_scalar py_float) comment_prefixes.

Definition nonempty (v : string) : bool := negb (Str.is_empty v).

(** The closure [_split] of [split_list], with the [sep] and [coerce_fn]
    it captures. *)
Definition _split {T} (sep : string) (coerce_fn : string -> outcome T)
    (line : string) : outcome (list T) :=
  let* pieces := str_split line sep None in
  mapM (fun v => coerce_fn (Str.strip v)) (List.filter nonempty pieces).

Definition newline : string := String Str.LF EmptyString.

Definition split_list {T} (value : string) (sep : string)
    (coerce_fn : string -> outcome T) (subsplit_dangling : bool)
    (comment_prefixes : string) : outcome (CommentedList.t T) :=
  let comment_prefixes := Str.replace sep "" comment_prefixes in
  let values := Str.splitlines (Str.strip value) in
  let sep :=
    if negb subsplit_dangling && (1 <? length values)%nat
    then (sep ++ newline)%string else sep in
  let* entries :=
    mapM (fun v => split_comment v (_split sep coerce_fn) comment_prefixes) values in
  Return (CommentedList.init entries).

(** The closure [_split_kv] of [split_kv_pairs].  The generator [pairs] is
    consumed item by item: an item is cut at [key_sep], unpacked into [k]
    and [v], and its value coerced, before the next item is looked at. *)
Definition _split_kv {T} (key_sep pair_sep : string)
    (coerce_fn : string -> outcome T) (line : string) : outcome (list (string * T)) :=
  let* items := str_split (Str.strip line) pair_sep None in
  mapM (fun item =>
          let* kv := str_split item key_sep (Some 1) in
          match kv with
          | [k; v] =>
              let* v' := coerce_fn (Str.strip v) in
              Return (Str.strip k, v')
          | _ => Raise ValueError
          end)
       (List.filter (fun item => Str.contains key_sep item) items).

Definition split_kv_pairs {T} (value : string) (key_sep : string)
    (coerce_fn : string -> outcome T) (pair_sep : string)
    (subsplit_dangling : bool) (comment_prefixes : string)
    : outcome (CommentedKV.t T) :=
  let comment_prefixes := Str.replace key_sep "" comment_prefixes in
  let comment_prefixes := Str.replace pair_sep "" comment_prefixes in
  let values := Str.splitlines (Str.strip value) in
  let pair_sep :=
    if negb subsplit_dangling && (1 <? length values)%nat
    then (pair_sep ++ newline)%string else pair_sep in
  let* entries :=
    mapM (fun v => split_comment v (_split_kv key_sep pair_sep coerce_fn)
                     comment_prefixes) values in
  Return (CommentedKV.init entries).

(* ================================================================== *)
(** ** Appliers *)
(* ================================================================== *)

(** What a transformation returns: an object without [as_toml_obj], or one
    of the intermediate representations. *)
Inductive processed : Type :=
| Plain (v : pyvalue)
| OfCommented (c : Commented.t pyvalue)
| OfCommentedList (c : CommentedList.t pyvalue)
| OfCommentedKV (c : CommentedKV.t pyvalue).

(** A transformation is a function of the value it is given: it returns
    or raises, and leaves the container alone. *)
Definition Transformation : Type := pyvalue -> outcome processed.

(** The records handed to [_logger].  A message is an f-string: its
    literal text and its replacement fields, not rendered. *)
Inductive level : Type := WARNING | DEBUG.

Inductive fragment : Type :=
| Lit (text : string)
| Fmt (v : pyvalue).

Record LogRecord : Type := mkLogRecord {
  levelname : level;
  msg : list fragment;
  exc_info : bool
}.

(** [value.as_toml_obj()] on an intermediate representation: the node, and
    the representation as the call leaves it. *)
Definition call_as_toml_obj (value : processed) : outcome (pyvalue * processed) :=
  match value with
  | Plain v => Raise (OtherException "AttributeError")
  | OfCommented c =>
      Return (TomlItem (Commented.as_toml_obj c (PyStr "")), value)
  | OfCommentedList c =>
      let* result := CommentedList.as_toml_obj c in
      let '(obj, c) := result in
      Return (TomlArray obj, OfCommentedList c)
  | OfCommentedKV c =>
      let* result := CommentedKV.as_toml_obj c in
      let '(obj, c) := result in
      Return (TomlTable obj, OfCommentedKV c)
  end.

(** [value.comment], for a value that has the attribute. *)
Definition attr_comment (value : processed) : option string :=
  match value with
  | Plain _ => None
  | OfCommented c => Commented.comment c
  | OfCommentedList c => CommentedList.comment c
  | OfCommentedKV c => CommentedKV.comment c
  end.

(** [obj.comment(text)] on a node; [None] for an object without the
    method. *)
Definition node_comment (obj : pyvalue) (text : string) : option pyvalue :=
  match obj with
  | TomlItem it => Some (TomlItem (item_comment it text))
  | TomlArray a => Some (TomlArray (array_comment a text))
  | TomlTable t => Some (TomlTable (table_comment t text))
  | _ => None
  end.

(** [_add_to_container].  [obj] is the very object stored under [field],
    so that commenting it after the assignment changes the stored node. *)
Definition _add_to_container (container : gmap string pyvalue) (field : string)
    (value : processed) : outcome (gmap string pyvalue) :=
  match value with
  | Plain v => Return (<[field := v]> container)
  | _ =>
      let* result := call_as_toml_obj value in
      let '(obj, value) := result in
      let container := <[field := obj]> container in
      match attr_comment value with
      | Some text =>
          match node_comment obj text with
          | Some obj => Return (<[field := obj]> container)
          | None => Return container
          end
      | None => Return container
      end
  end.

(** [apply].  The log is passed along: the result is the container and
    the log after the call.  [container[field]] is a [KeyError] for a key
    that the container does not hold, and [except Exception] lets through
    what is not an [Exception]. *)
Definition apply (container : gmap string pyvalue) (field : string)
    (fn : Transformation) (log : list LogRecord)
    : outcome (gmap string pyvalue * list LogRecord) :=
  match container !! field with
  | None => Raise KeyError
  | Some value =>
      match fn value with
      | Raise e =>
          if isinstance_Exception e then
            let msg := [Lit "Impossible to transform: "; Fmt value; Lit " <";
                        Lit (class_name value); Lit ">"] in
            let log := log ++ [mkLogRecord WARNING msg false] in
            let log := log ++ [mkLogRecord DEBUG
                                 [Lit "Please check the following details"] true] in
            Return (container, log)
          else Raise e
      | Return processed =>
          let* container := _add_to_container container field processed in
          Return (container, log)
      end
  end.

(** [*parent, last = path]: the segments but the last, and the last. *)
Fixpoint unpack_last (path : list string) : option (list string * string) :=
  match path with
  | [] => None
  | [last] => Some ([], last)
  | k :: rest =>
      match unpack_last rest with
      | Some (parent, last) => Some (k :: parent, last)
      | None => None
      end
  end.

(** The container after the mapping reached through [parent] has become
    [nested]: that mapping is an object inside the container, and [apply]
    changes it in place. *)
Fixpoint set_nested (container : gmap string pyvalue) (parent : list string)
    (nested : gmap string pyvalue) : gmap string pyvalue :=
  match parent with
  | [] => nested
  | k :: ks =>
      match container !! k with
      | Some (PyDict d) => <[k := PyDict (set_nested d ks nested)]> container
      | _ => container
      end
  end.

(** [apply_nested].  An empty path cannot be unpacked, a [ValueError].
    The branch with [TypeError] is not reached: [nested] has passed the
    test of [isinstance]. *)
Definition apply_nested (container : gmap string pyvalue) (path : list string)
    (fn : Transformation) (log : list LogRecord)
    : outcome (gmap string pyvalue * list LogRecord) :=
  match unpack_last path with
  | None => Raise ValueError
  | Some (parent, last) =>
      let nested := get_nested (PyDict container) parent PyNone in
      if negb (truthy nested) then Return (container, log)
      else if negb (isinstance_MutableMapping nested) then Raise ValueError
      else
        match nested with
        | PyDict nested =>
            match nested !! last with
            | Some _ =>
                let* result := apply nested last fn log in
                let '(nested, log) := result in
                Return (set_nested container parent nested, log)
            | None => Return (container, log)
            end
        | _ => Raise TypeError
        end
  end.

(* ================================================================== *)
(** ** The vocabulary of the statements *)
(* ================================================================== *)

Definition is_warning (r : LogRecord) : bool :=
  match levelname r with
  | WARNING => true
  | DEBUG => false
  end.

(** The records of level WARNING, in the order in which they were logged. *)
Definition warnings (log : list LogRecord) : list LogRecord :=
  List.filter is_warning log.

(** The message of the warning of [apply]: the value and its class. *)
Definition impossible_to_transform (value : pyvalue) : list fragment :=
  [Lit "Impossible to transform: "; Fmt value; Lit " <";
   Lit (class_name value); Lit ">"].

(** The segments [keys] lead from [m] to [v] through nested mappings. *)
Inductive resolves : pyvalue -> list string -> pyvalue -> Prop :=
| resolves_here m : resolves m [] m
| resolves_step d k x ks v :
    d !! k = Some x -> resolves x ks v -> resolves (PyDict d) (k :: ks) v.

(** Some segment of [keys] is missing from the mapping it is looked up in. *)
Inductive absent : pyvalue -> list string -> Prop :=
| absent_here d k ks : d !! k = None -> absent (PyDict d) (k :: ks)
| absent_step d k x ks :
    d !! k = Some x -> absent x ks -> absent (PyDict d) (k :: ks).

(** [float] on the one text used below. *)
Definition float_of_zero (text : string) : option PrimFloat.float :=
  if String.eqb text "0.0" then Some PrimFloat.zero else None.

(** The elements that one entry with the comment [cmt] gives to a
    multi-line array, in the words of the specification: the comment goes
    to the last element of the entry, and an entry without elements gives
    a full-line comment. *)
Fixpoint items_last_commented {T} (cmt : string) (values : list T) : list (Item T) :=
  match values with
  | [] => [Comment cmt]
  | [v] => [Value v (Some cmt)]
  | v :: vs => item v :: items_last_commented cmt vs
  end.

(** The elements that an entry gives to a multi-line array. *)
Definition entry_elements {T} (entry : Commented.t (list T)) : list (Item T) :=
  let values := Commented.value_or entry [] in
  match Commented.has_comment entry, Commented.comment entry with
  | true, Some cmt => items_last_commented cmt values
  | _, _ => map item values
  end.

(** The plain elements of an entry. *)
Definition entry_values {T} (entry : Commented.t (list T)) : list (Item T) :=
  map item (Commented.value_or entry []).

(** The comment that an entry carries, if it is not empty. *)
Definition entry_comment {T} (entry : Commented.t T) : option string :=
  if Commented.has_comment entry then Commented.comment entry else None.

(** The elements read from the text of one line, in the order of the code:
    cut at [sep], drop the empty pieces, then strip what is left and
    convert it. *)
Definition line_elements {T} (sep : string) (g : string -> T) (part : string) : list T :=
  map (fun piece => g (Str.strip piece))
    (List.filter nonempty (Str.split_nonempty sep None part)).

(** The elements of one line in the words of the specification: "split
    the line on [sep], trim each piece, drop empty pieces, coerce each". *)
Definition elements_as_specified {T} (sep : string) (g : string -> T) (line : string)
    : list T :=
  map g (List.filter nonempty (map Str.strip (Str.split_nonempty sep None line))).

(** A line taken as one element, unless it is empty. *)
Definition whole_line {T} (g : string -> T) (part : string) : list T :=
  if Str.is_empty part then [] else [g (Str.strip part)].

(** [s.replace(a, new)] for a one-character [a], character by character. *)
Fixpoint subst_char (a : ascii) (new s : string) : string :=
  match s with
  | EmptyString => EmptyString
  | String c s' =>
      if Ascii.eqb a c then (new ++ subst_char a new s')%string
      else String c (subst_char a new s')
  end.

(** A text of plus and minus signs only. *)
Fixpoint signs_only (s : string) : bool :=
  match s with
  | EmptyString => true
  | String c s' => Str.has_char c "+-" && signs_only s'
  end.

(** [kebab_case] on one character. *)
Definition kebab_char (c : ascii) : ascii :=
  if Ascii.eqb "_" (Str.lower_char c) then "-"%char else Str.lower_char c.

(** A text rewritten character by character. *)
Fixpoint map_chars (f : ascii -> ascii) (s : string) : string :=
  match s with
  | EmptyString => EmptyString
  | String c s' => String (f c) (map_chars f s')
  end.

(** The pairs read from the text of one line, in the order of the code:
    cut at [pair_sep], keep the items that hold [key_sep], cut each at the
    first [key_sep], strip both sides and convert the value. *)
Definition line_pairs {T} (key_sep pair_sep : string) (g : string -> T)
    (part : string) : list (string * T) :=
  flat_map (fun item =>
              match Str.partition key_sep item with
              | Some (k, v) => [(Str.strip k, g (Str.strip v))]
              | None => []
              end)
    (Str.split_nonempty pair_sep None (Str.strip part)).

(** The pairs read from the text of one line that is not cut at
    [pair_sep]: the stripped text is the only item. *)
Definition whole_pair {T} (key_sep : string) (g : string -> T) (part : string)
    : list (string * T) :=
  match Str.partition key_sep (Str.strip part) with
  | Some (k, v) => [(Str.strip k, g (Str.strip v))]
  | None => []
  end.

(** The values of the elements of an array, full-line comments left out. *)
Definition array_values {T} (body : list (Item T)) : list T :=
  flat_map (fun it => match it with Value v _ => [v] | Comment _ => [] end) body.

(** The value stored under a key of a table. *)
Definition table_value {T} (t : Table T) (k : string) : option T :=
  match table_getitem t k with
  | Some (Value v _) => Some v
  | _ => None
  end.

(** All the values, or pairs, of a representation, in the order of its
    entries. *)
Definition all_values {A} (data : list (Commented.t (list A))) : list A :=
  concat (map (fun entry => Commented.value_or entry []) data).

(** The last pair with the key [k]. *)
Definition last_pair {T} (k : string) (pairs : list (string * T)) : option (string * T) :=
  find (fun kv => String.eqb (fst kv) k) (rev pairs).

(** A representation as a splitter builds it: its [comment] attribute is
    still [None]. *)
Definition fresh (value : processed) : Prop :=
  match value with
  | Plain _ => False
  | OfCommented _ => True
  | OfCommentedList c => CommentedList.comment c = None
  | OfCommentedKV c => CommentedKV.comment c = None
  end.

(* ================================================================== *)
(** * Properties *)
(* ================================================================== *)

(** ** Texts *)

Lemma rstrip_idempotent s : Str.rstrip (Str.rstrip s) = Str.rstrip s.
Proof.
  induction s as [|c s IH]; [reflexivity|].
  cbn [Str.rstrip]. destruct (Str.rstrip s) as [|d r] eqn:E.
  - destruct (Str.isspace c) eqn:Hc; [reflexivity|].
    cbn [Str.rstrip]. rewrite Hc. reflexivity.
  - change (Str.rstrip (String c (String d r))) with
      (match Str.rstrip (String d r) with
       | EmptyString => if Str.isspace c then EmptyString else String c EmptyString
       | r' => String c r'
       end).
    rewrite IH. reflexivity.
Qed.

Lemma lstrip_head s :
  Str.lstrip s = EmptyString
  \/ exists c t, Str.lstrip s = String c t /\ Str.isspace c = false.
Proof.
  induction s as [|c s IH]; [left; reflexivity|].
  cbn [Str.lstrip]. destruct (Str.isspace c) eqn:Hc; [exact IH|].
  right. exists c, s. split; [reflexivity|exact Hc].
Qed.

Lemma rstrip_head c t :
  Str.isspace c = false -> exists t', Str.rstrip (String c t) = String c t'.
Proof.
  intros Hc. cbn [Str.rstrip]. destruct (Str.rstrip t) as [|d r].
  - rewrite Hc. exists EmptyString. reflexivity.
  - exists (String d r). reflexivity.
Qed.

Lemma strip_idempotent s : Str.strip (Str.strip s) = Str.strip s.
Proof.
  unfold Str.strip.
  destruct (lstrip_head s) as [E|(c & t & E & Hc)]; rewrite E; [reflexivity|].
  destruct (rstrip_head c t Hc) as [t' E'].
  rewrite E'. cbn [Str.lstrip]. rewrite Hc, <- E'. apply rstrip_idempotent.
Qed.

Lemma startswith_char_has_char s q :
  Str.startswith s (String q EmptyString) = true -> Str.has_char q s = true.
Proof.
  destruct s as [|c s]; [discriminate|].
  cbn [Str.startswith Str.has_char]. intros H.
  apply andb_true_iff in H as [H _]. rewrite H. reflexivity.
Qed.

(** [partition] cuts at the first occurrence of a one-character separator. *)
Lemma partition_char_first p s :
  Str.has_char p s = true ->
  exists before after,
    Str.partition (String p EmptyString) s = Some (before, after)
    /\ s = (before ++ String p after)%string
    /\ Str.has_char p before = false.
Proof.
  induction s as [|c s IH]; [discriminate|].
  intros H. cbn [Str.has_char] in H.
  cbn [Str.partition Str.startswith].
  destruct (Ascii.eqb p c) eqn:Hpc.
  - apply Ascii.eqb_eq in Hpc as <-.
    destruct s; cbn; exists EmptyString; eexists; repeat split; reflexivity.
  - cbn [orb] in H. destruct (IH H) as (before & after & Hpart & Hs & Hb).
    cbn [andb]. rewrite Hpart.
    exists (String c before), after. repeat split.
    + rewrite Hs at 1. reflexivity.
    + cbn [Str.has_char]. rewrite Hpc, Hb. reflexivity.
Qed.

Lemma split_fuel_exhausted fuel sep s : Str.split_fuel fuel sep (Some 0) s = [s].
Proof. destruct fuel; reflexivity. Qed.

Lemma startswith_length s p : Str.startswith s p = true -> String.length p <= String.length s.
Proof.
  revert s. induction p as [|a p IH]; intros s H; [cbn; lia|].
  destruct s as [|b s]; [discriminate|].
  cbn [Str.startswith] in H. apply andb_true_iff in H as [_ H].
  cbn [String.length]. apply IH in H. lia.
Qed.

Lemma drop_length n s : String.length (Str.drop n s) = String.length s - n.
Proof.
  revert s. induction n as [|n IH]; intros s; [cbn; lia|].
  destruct s as [|c s]; [reflexivity|]. cbn [Str.drop String.length]. rewrite IH. lia.
Qed.

(** A cut at a separator that is not empty leaves a shorter text. *)
Lemma partition_shorter sep s before after :
  Str.is_empty sep = false ->
  Str.partition sep s = Some (before, after) ->
  String.length after < String.length s.
Proof.
  intros Hsep. revert before. induction s as [|c s IH]; intros before.
  - cbn [Str.partition]. destruct sep; [discriminate|]. discriminate.
  - cbn [Str.partition]. destruct (Str.startswith (String c s) sep) eqn:E.
    + intros [= _ <-]. rewrite drop_length. apply startswith_length in E.
      destruct sep; [discriminate|]. cbn [String.length] in *. lia.
    + destruct (Str.partition sep s) as [[b a]|]; [|discriminate].
      intros [= _ <-]. specialize (IH b eq_refl). cbn [String.length]. lia.
Qed.

(** The fuel of [split_nonempty] is enough: more fuel gives the same
    pieces. *)
Lemma split_fuel_enough sep :
  Str.is_empty sep = false ->
  forall fuel1 fuel2 maxsplit s,
    String.length s <= fuel1 -> String.length s <= fuel2 ->
    Str.split_fuel fuel1 sep maxsplit s = Str.split_fuel fuel2 sep maxsplit s.
Proof.
  intros Hsep.
  assert (Hempty : forall fuel maxsplit,
             Str.split_fuel fuel sep maxsplit EmptyString = [EmptyString]).
  { intros [|fuel] [[|m]|]; try reflexivity;
      cbn [Str.split_fuel Str.partition]; destruct sep; try discriminate; reflexivity. }
  induction fuel1 as [|fuel1 IH]; intros fuel2 maxsplit s H1 H2.
  - destruct s; [|cbn in H1; lia]. rewrite !Hempty. reflexivity.
  - destruct fuel2 as [|fuel2].
    { destruct s; [|cbn in H2; lia]. rewrite !Hempty. reflexivity. }
    destruct maxsplit as [[|m]|]; [reflexivity| |];
      cbn [Str.split_fuel];
      destruct (Str.partition sep s) as [[before after]|] eqn:E; try reflexivity;
      pose proof (partition_shorter _ _ _ _ Hsep E);
      f_equal; apply IH; lia.
Qed.

Lemma has_char_nonempty p s : Str.has_char p s = true -> exists n, String.length s = S n.
Proof. destruct s; [discriminate|]. intros _. eexists. reflexivity. Qed.

Lemma split_in_2_at_char p s :
  Str.has_char p s = true ->
  exists before after,
    _split_in_2 s (String p EmptyString) = Return (before, Some after)
    /\ s = (before ++ String p after)%string
    /\ Str.has_char p before = false.
Proof.
  intros H.
  destruct (partition_char_first p s H) as (before & after & Hpart & Hs & Hb).
  destruct (has_char_nonempty p s H) as [n Hn].
  exists before, after. split; [|split; assumption].
  unfold _split_in_2, str_split, Str.split_nonempty. cbn [Str.is_empty bind].
  rewrite Hn. cbn [Str.split_fuel]. rewrite Hpart.
  cbn [fmap option_fmap option_map]. rewrite split_fuel_exhausted. reflexivity.
Qed.

Lemma filter_none {A} (f : A -> bool) l :
  (forall x, In x l -> f x = false) -> List.filter f l = [].
Proof.
  induction l as [|x l IH]; [reflexivity|].
  intros H. cbn. rewrite (H x (or_introl eq_refl)).
  apply IH. intros y Hy. apply H. right. exact Hy.
Qed.

Lemma filter_first {A} (f : A -> bool) l1 p l2 :
  (forall x, In x l1 -> f x = false) -> f p = true ->
  List.filter f (l1 ++ p :: l2) = p :: List.filter f l2.
Proof.
  intros H1 Hp. rewrite List.filter_app, (filter_none f l1 H1).
  cbn. rewrite Hp. reflexivity.
Qed.

Lemma existsb_none {A} (f : A -> bool) l :
  (forall x, In x l -> f x = false) -> existsb f l = false.
Proof.
  intros H. destruct (existsb f l) eqn:E; [|reflexivity].
  apply existsb_exists in E as (x & Hx & Hfx). rewrite (H x Hx) in Hfx. discriminate.
Qed.

Lemma filter_head {A} (f : A -> bool) l p rest :
  List.filter f l = p :: rest -> f p = true.
Proof.
  intros Hf. assert (Hin : In p (p :: rest)) by (left; reflexivity).
  rewrite <- Hf in Hin. apply filter_In in Hin as [_ Hin]. exact Hin.
Qed.

Lemma filter_some {A} (f : A -> bool) l x :
  In x l -> f x = true -> List.filter f l <> [].
Proof.
  intros Hx Hfx E.
  assert (Hin : In x (List.filter f l)) by (apply filter_In; split; assumption).
  rewrite E in Hin. destruct Hin.
Qed.

Lemma has_char_lstrip c s : Str.has_char c (Str.lstrip s) = true -> Str.has_char c s = true.
Proof.
  induction s as [|d s IH]; [discriminate|].
  cbn [Str.lstrip]. destruct (Str.isspace d); [|exact (fun H => H)].
  intros H. cbn [Str.has_char]. rewrite (IH H). apply orb_true_r.
Qed.

Lemma has_char_rstrip c s : Str.has_char c (Str.rstrip s) = true -> Str.has_char c s = true.
Proof.
  induction s as [|d s IH]; [discriminate|].
  cbn [Str.rstrip]. destruct (Str.rstrip s) as [|e r].
  - destruct (Str.isspace d); [discriminate|].
    cbn [Str.has_char]. rewrite orb_false_r. intros ->. reflexivity.
  - cbn [Str.has_char] in *. intros H. apply orb_true_iff in H as [H|H].
    + rewrite H. reflexivity.
    + rewrite (IH H). apply orb_true_r.
Qed.

Lemma has_char_strip c s : Str.has_char c s = false -> Str.has_char c (Str.strip s) = false.
Proof.
  intros H. destruct (Str.has_char c (Str.strip s)) eqn:E; [|reflexivity].
  apply has_char_rstrip, has_char_lstrip in E. congruence.
Qed.

Lemma has_char_app c a b :
  Str.has_char c (a ++ b)%string = Str.has_char c a || Str.has_char c b.
Proof.
  induction a as [|d a IH]; [reflexivity|].
  change (String d a ++ b)%string with (String d (a ++ b)%string).
  cbn [Str.has_char]. rewrite IH. apply orb_assoc.
Qed.

Lemma linebreak_LF : Str.islinebreak Str.LF = true.
Proof. reflexivity. Qed.

Lemma splitlines_no_linebreak_bounded n :
  forall s, String.length s <= n ->
  forall line c, In line (Str.splitlines s) -> Str.islinebreak c = true ->
  Str.has_char c line = false.
Proof.
  induction n as [|n IH]; intros s Hlen line c Hin Hc.
  - destruct s; [destruct Hin|cbn in Hlen; lia].
  - destruct s as [|d s]; [destruct Hin|].
    cbn [String.length] in Hlen. cbn [Str.splitlines] in Hin.
    destruct (Str.islinebreak d) eqn:Hd.
    + destruct Hin as [<-|Hin]; [reflexivity|].
      destruct s as [|e s]; [destruct Hin|].
      destruct (Ascii.eqb d Str.CR && Ascii.eqb e Str.LF).
      * apply (IH s); [cbn [String.length] in Hlen; lia|exact Hin|exact Hc].
      * apply (IH (String e s)); [lia|exact Hin|exact Hc].
    + assert (Hcd : Ascii.eqb c d = false).
      { destruct (Ascii.eqb c d) eqn:E; [|reflexivity].
        apply Ascii.eqb_eq in E as ->. congruence. }
      destruct (Str.splitlines s) as [|l ls] eqn:Hs.
      * destruct Hin as [<-|[]]. cbn [Str.has_char]. rewrite Hcd. reflexivity.
      * destruct Hin as [<-|Hin].
        -- cbn [Str.has_char]. rewrite Hcd. cbn [orb].
           apply (IH s); [lia|rewrite Hs; left; reflexivity|exact Hc].
        -- apply (IH s); [lia|rewrite Hs; right; exact Hin|exact Hc].
Qed.

(** A line given by [splitlines] holds no line feed. *)
Lemma splitlines_no_LF s line :
  In line (Str.splitlines s) -> Str.has_char Str.LF line = false.
Proof.
  intros Hin.
  apply (splitlines_no_linebreak_bounded (String.length s) s (le_n _) line Str.LF Hin).
  reflexivity.
Qed.

Lemma startswith_has_chars t p c :
  Str.startswith t p = true -> Str.has_char c p = true -> Str.has_char c t = true.
Proof.
  revert t. induction p as [|a p IH]; intros t Hst Hc; [discriminate|].
  destruct t as [|b t]; [discriminate|].
  cbn [Str.startswith] in Hst. apply andb_true_iff in Hst as [Hab Hst].
  apply Ascii.eqb_eq in Hab as <-.
  cbn [Str.has_char] in *. apply orb_true_iff in Hc as [Hc|Hc].
  - rewrite Hc. reflexivity.
  - rewrite (IH t Hst Hc). apply orb_true_r.
Qed.

(** A separator with a character that the text does not hold is not found. *)
Lemma partition_not_found sep s c :
  Str.has_char c sep = true -> Str.has_char c s = false -> Str.partition sep s = None.
Proof.
  intros Hsep. induction s as [|d s IH]; intros Hs.
  - cbn [Str.partition]. destruct (Str.startswith EmptyString sep) eqn:E; [|reflexivity].
    rewrite (startswith_has_chars _ _ c E Hsep) in Hs. discriminate.
  - cbn [Str.partition]. destruct (Str.startswith (String d s) sep) eqn:E.
    + rewrite (startswith_has_chars _ _ c E Hsep) in Hs. discriminate.
    + cbn [Str.has_char] in Hs. apply orb_false_iff in Hs as [_ Hs].
      rewrite (IH Hs). reflexivity.
Qed.

Lemma append_nonempty a c b : Str.is_empty (a ++ String c b)%string = false.
Proof. destruct a; reflexivity. Qed.

Lemma digit_char_facts c :
  Str.isdigit_char c = true ->
  Str.lower_char c = c /\ Str.has_char c "+-" = false
  /\ Ascii.eqb "." c = false /\ Ascii.eqb "_" c = false.
Proof.
  destruct c as [[] [] [] [] [] [] [] []]; intros H; try discriminate H;
    repeat split; reflexivity.
Qed.

Lemma all_digits_lower s : Str.all_digits s = true -> Str.lower s = s.
Proof.
  induction s as [|c s IH]; [reflexivity|].
  cbn [Str.all_digits Str.lower]. intros H. apply andb_true_iff in H as [Hc Hs].
  destruct (digit_char_facts c Hc) as (-> & _). rewrite (IH Hs). reflexivity.
Qed.

Lemma all_digits_no_char s p :
  (forall c, Str.isdigit_char c = true -> Ascii.eqb p c = false) ->
  Str.all_digits s = true -> Str.has_char p s = false.
Proof.
  intros Hp. induction s as [|c s IH]; [reflexivity|].
  cbn [Str.all_digits Str.has_char]. intros H. apply andb_true_iff in H as [Hc Hs].
  rewrite (Hp c Hc), (IH Hs). reflexivity.
Qed.

Lemma replace_absent c new s :
  Str.has_char c s = false -> Str.replace (String c EmptyString) new s = s.
Proof.
  intros H. unfold Str.replace, Str.split_nonempty.
  destruct s as [|d s]; [reflexivity|].
  cbn [String.length Str.split_fuel].
  rewrite (partition_not_found _ _ c); [reflexivity| |exact H].
  cbn. rewrite Ascii.eqb_refl. reflexivity.
Qed.

Lemma count_char_absent c s : Str.has_char c s = false -> Str.count_char c s = 0.
Proof.
  induction s as [|d s IH]; [reflexivity|].
  cbn [Str.has_char Str.count_char]. intros H. apply orb_false_iff in H as [-> H].
  rewrite (IH H). reflexivity.
Qed.

Lemma isdecimal_is_float s : Str.isdecimal s = true -> is_float s = true.
Proof.
  intros H.
  assert (Hall : Str.all_digits s = true) by (destruct s; [discriminate|exact H]).
  assert (Hdot : Str.has_char "." s = false).
  { apply all_digits_no_char; [|exact Hall]. intros c Hc. apply (digit_char_facts c Hc). }
  assert (Hus : Str.has_char "_" s = false).
  { apply all_digits_no_char; [|exact Hall]. intros c Hc. apply (digit_char_facts c Hc). }
  unfold is_float. rewrite (all_digits_lower s Hall).
  assert (Hsign : Str.lstrip_chars "+-" s = s).
  { destruct s as [|c s]; [reflexivity|]. cbn [Str.all_digits] in Hall.
    apply andb_true_iff in Hall as [Hc _]. cbn [Str.lstrip_chars].
    destruct (digit_char_facts c Hc) as (_ & -> & _). reflexivity. }
  rewrite Hsign, (replace_absent _ _ _ Hdot), (replace_absent _ _ _ Hus), H.
  rewrite (count_char_absent _ _ Hdot). reflexivity.
Qed.

(** ** The error monad *)

Lemma mapM_pure {A B} (f : A -> B) (l : list A) :
  mapM (fun x => Return (f x)) l = Return (map f l).
Proof. induction l as [|x l IH]; [reflexivity|]. cbn. rewrite IH. reflexivity. Qed.

Lemma mapM_length {A B} (f : A -> outcome B) (l : list A) (ys : list B) :
  mapM f l = Return ys -> length ys = length l.
Proof.
  revert ys. induction l as [|x l IH]; intros ys; cbn [mapM].
  - intros [= <-]. reflexivity.
  - destruct (f x); [|discriminate]. cbn [bind].
    destruct (mapM f l) as [zs|]; [|discriminate]. cbn [bind].
    intros [= <-]. cbn [length]. rewrite (IH zs eq_refl). reflexivity.
Qed.

Lemma mapM_ext_in {A B} (f g : A -> outcome B) (l : list A) :
  (forall x, In x l -> f x = g x) -> mapM f l = mapM g l.
Proof.
  induction l as [|x l IH]; [reflexivity|].
  intros H. cbn. rewrite (H x (or_introl eq_refl)), IH; [reflexivity|].
  intros y Hy. apply H. right. exact Hy.
Qed.

Lemma mapM_returns {A B} (f : A -> outcome B) (l : list A) :
  (forall x, In x l -> exists y, f x = Return y) ->
  exists ys, mapM f l = Return ys /\ Forall2 (fun x y => f x = Return y) l ys.
Proof.
  induction l as [|x l IH]; intros H.
  - exists []. split; [reflexivity|constructor].
  - destruct (H x (or_introl eq_refl)) as [y Hy].
    destruct IH as (ys & Hys & Hall); [intros z Hz; apply H; right; exact Hz|].
    exists (y :: ys). cbn. rewrite Hy, Hys. split; [reflexivity|].
    constructor; assumption.
Qed.

Lemma Forall2_impl_in {A B} (P Q : A -> B -> Prop) (l : list A) (k : list B) :
  Forall2 P l k -> (forall x y, In x l -> P x y -> Q x y) -> Forall2 Q l k.
Proof.
  induction 1 as [|x y l k Hxy _ IH]; intros H; constructor.
  - apply H; [left; reflexivity|exact Hxy].
  - apply IH. intros x' y' Hx'. apply H. right. exact Hx'.
Qed.

(** ** [coerce_scalar] *)

(** C8, as stated, fails: the text is stripped first, and it is the
    stripped text that is returned when no conversion applies. *)
Lemma coerce_scalar_returns_stripped_text :
  (forall py_float, coerce_scalar py_float " hello " = Return (PyStr "hello"))
  /\ PyStr "hello" <> PyStr " hello ".
Proof. split; [reflexivity|discriminate]. Qed.

(** C8, amended.  [coerce_scalar] tests the stripped text, in this order:
    all decimal digits, then it is the integer read from them, although
    [is_float] accepts such a text too; else [is_float], then it is the
    float that [float] reads from it; else [is_true], then [True]; else
    [is_false], then [False]; else the stripped text itself. *)
Theorem coerce_scalar_order
    (py_float : string -> option PrimFloat.float) (value : string) :
  (Str.isdecimal (Str.strip value) = true ->
   coerce_scalar py_float value = Return (PyInt (Str.int_of_digits (Str.strip value)))
   /\ is_float (Str.strip value) = true)
  /\ (Str.isdecimal (Str.strip value) = false ->
      is_float (Str.strip value) = true ->
      forall x, py_float (Str.strip value) = Some x ->
      coerce_scalar py_float value = Return (PyFloat x))
  /\ (Str.isdecimal (Str.strip value) = false ->
      is_float (Str.strip value) = false ->
      is_true (Str.strip value) = true ->
      coerce_scalar py_float value = Return (PyBool true))
  /\ (Str.isdecimal (Str.strip value) = false ->
      is_float (Str.strip value) = false ->
      is_true (Str.strip value) = false ->
      is_false (Str.strip value) = true ->
      coerce_scalar py_float value = Return (PyBool false))
  /\ (Str.isdecimal (Str.strip value) = false ->
      is_float (Str.strip value) = false ->
      is_true (Str.strip value) = false ->
      is_false (Str.strip value) = false ->
      coerce_scalar py_float value = Return (PyStr (Str.strip value))).
Proof.
  unfold coerce_scalar. split; [|repeat split].
  - intros H. rewrite H. split; [reflexivity|]. apply isdecimal_is_float, H.
  - intros -> -> x ->. reflexivity.
  - intros -> -> ->. reflexivity.
  - intros -> -> -> ->. reflexivity.
  - intros -> -> -> ->. reflexivity.
Qed.

Lemma coerce_scalar_order_witness :
  (coerce_scalar float_of_zero " 42 " = Return (PyInt 42)
   /\ is_float (Str.strip " 42 ") = true)
  /\ coerce_scalar float_of_zero "0.0" = Return (PyFloat PrimFloat.zero)
  /\ coerce_scalar float_of_zero " Yes" = Return (PyBool true)
  /\ coerce_scalar float_of_zero "off" = Return (PyBool false)
  /\ coerce_scalar float_of_zero " hello " = Return (PyStr "hello").
Proof.
  split; [|split; [|split; [|split]]].
  - apply (proj1 (coerce_scalar_order float_of_zero " 42 ")). reflexivity.
  - apply (proj1 (proj2 (coerce_scalar_order float_of_zero "0.0")));
      reflexivity.
  - apply (proj1 (proj2 (proj2 (coerce_scalar_order float_of_zero " Yes"))));
      reflexivity.
  - apply (proj1 (proj2 (proj2 (proj2 (coerce_scalar_order float_of_zero "off")))));
      reflexivity.
  - apply (proj2 (proj2 (proj2 (proj2 (coerce_scalar_order float_of_zero " hello ")))));
      reflexivity.
Defined.

(** The order matters: ["1"] and ["0"] are integers although [is_true] and
    [is_false] accept them, and a text of digits passes [is_float] too. *)
Example coerce_scalar_digits_before_booleans py_float :
  coerce_scalar py_float "1" = Return (PyInt 1) /\ is_true "1" = true
  /\ coerce_scalar py_float "0" = Return (PyInt 0) /\ is_false "0" = true
  /\ coerce_scalar py_float "42" = Return (PyInt 42) /\ is_float "42" = true.
Proof. repeat split. Qed.

(** ** [split_comment] *)

(** C3, as stated, fails: the coercion function receives the stripped
    line, not the line. *)
Lemma split_comment_coerces_stripped_line :
  split_comment " foo " (fun v => Return (noop v)) CP
  = Return (Commented.mk (Given "foo") None)
  /\ split_comment " foo " (fun v => Return (noop v)) CP
     <> Return (Commented.mk (Given (noop " foo ")) None).
Proof. split; [reflexivity|discriminate]. Qed.

(** C3, amended.  Let [s] be the stripped line.
    - When no character of [comment_prefixes] occurs in [s], or [s] spans
      more than one physical line, the result is the coercion of [s], with
      no comment.
    - Otherwise, when [s] starts with a prefix character, the result is
      comment-only, and its comment is [s] without its leading prefix
      characters, stripped.
    - Otherwise let [p] be the first character of [comment_prefixes], in
      its order, that occurs in [s].  Then [s] is [before], [p], [after]
      with no [p] in [before]; the value is the coercion of [before]
      stripped, and the comment is [after], stripped, without its leading
      prefix characters and stripped again — or no comment when [after]
      is empty. *)
Theorem split_comment_rules {T} (value : string) (coerce_fn : string -> outcome T)
    (comment_prefixes : string) :
  ((forall q, In q (Str.chars comment_prefixes) -> Str.has_char q (Str.strip value) = false)
   \/ 1 < length (Str.splitlines (Str.strip value)) ->
   split_comment value coerce_fn comment_prefixes
   = let* v := coerce_fn (Str.strip value) in Return (Commented.mk (Given v) None))
  /\ (length (Str.splitlines (Str.strip value)) <= 1 ->
      forall q, In q (Str.chars comment_prefixes) ->
      Str.startswith (Str.strip value) (String q EmptyString) = true ->
      split_comment value coerce_fn comment_prefixes
      = Return (Commented.mk NOT_GIVEN
                  (Some (Str.strip (Str.lstrip_chars comment_prefixes (Str.strip value))))))
  /\ (length (Str.splitlines (Str.strip value)) <= 1 ->
      (forall q, In q (Str.chars comment_prefixes) ->
                 Str.startswith (Str.strip value) (String q EmptyString) = false) ->
      forall l1 p l2,
        Str.chars comment_prefixes = l1 ++ p :: l2 ->
        (forall q, In q l1 -> Str.has_char q (Str.strip value) = false) ->
        Str.has_char p (Str.strip value) = true ->
        exists before after,
          Str.strip value = (before ++ String p after)%string
          /\ Str.has_char p before = false
          /\ split_comment value coerce_fn comment_prefixes
             = let* v := coerce_fn (Str.strip before) in
               Return (Commented.mk (Given v)
                         (if Str.is_empty after then None
                          else Some (Str.strip
                                       (Str.lstrip_chars comment_prefixes
                                          (Str.strip after)))))).
Proof.
  split; [|split].
  - intros [Hnone|Hlines]; unfold split_comment.
    + rewrite (filter_none _ _ Hnone). reflexivity.
    + apply Nat.ltb_lt in Hlines. rewrite Hlines, orb_true_r. reflexivity.
  - intros Hline q Hq Hstart. unfold split_comment.
    apply Nat.ltb_ge in Hline. rewrite Hline.
    destruct (List.filter _ (Str.chars comment_prefixes)) eqn:Hf.
    { exfalso. revert Hf. apply (filter_some _ _ q Hq).
      apply startswith_char_has_char, Hstart. }
    assert (Hex : existsb (fun p => Str.startswith (Str.strip value) (String p EmptyString))
                    (Str.chars comment_prefixes) = true).
    { apply existsb_exists. exists q. split; assumption. }
    cbn [orb]. rewrite Hex. unfold _strip_comment.
    destruct (Str.strip value) as [|c s] eqn:Hs; [discriminate|].
    cbn [Str.is_empty]. rewrite <- Hs, strip_idempotent. reflexivity.
  - intros Hline Hnostart l1 p l2 Hchars Hl1 Hp. unfold split_comment.
    apply Nat.ltb_ge in Hline. rewrite Hline.
    rewrite Hchars, (filter_first _ l1 p l2 Hl1 Hp), <- Hchars.
    cbn [orb]. rewrite (existsb_none _ _ Hnostart).
    destruct (split_in_2_at_char p _ Hp) as (before & after & Hsplit & Hs & Hb).
    exists before, after. split; [exact Hs|split; [exact Hb|]].
    rewrite Hsplit. reflexivity.
Qed.

Lemma split_comment_rules_witness :
  split_comment "hello" (fun v => Return (noop v)) CP
  = Return (Commented.mk (Given "hello") None)
  /\ split_comment "# whole line" (fun v => Return (noop v)) CP
     = Return (Commented.mk NOT_GIVEN (Some "whole line"))
  /\ exists before after,
       Str.strip "foo # bar" = (before ++ String "#" after)%string
       /\ Str.has_char "#" before = false
       /\ split_comment "foo # bar" (fun v => Return (noop v)) CP
          = let* v := Return (noop (Str.strip before)) in
            Return (Commented.mk (Given v)
                      (if Str.is_empty after then None
                       else Some (Str.strip (Str.lstrip_chars CP (Str.strip after))))).
Proof.
  split; [|split].
  - apply (proj1 (split_comment_rules "hello" (fun v => Return (noop v)) CP)).
    left. intros q [<-|[<-|[]]]; reflexivity.
  - apply (proj1 (proj2 (split_comment_rules "# whole line"
                           (fun v => Return (noop v)) CP)))
      with (q := "#"%char); [vm_compute; lia|left; reflexivity|reflexivity].
  - apply (proj2 (proj2 (split_comment_rules "foo # bar"
                           (fun v => Return (noop v)) CP)))
      with (l1 := []) (l2 := [";"%char]);
      [vm_compute; lia|intros q [<-|[<-|[]]]; reflexivity|reflexivity|intros q []|reflexivity].
Defined.

(** ** [split_list] *)

Lemma split_comment_ext {T} (value : string) (f g : string -> outcome T)
    (comment_prefixes : string) :
  f (Str.strip value) = g (Str.strip value) ->
  (forall before p after,
      Str.strip value = (before ++ String p after)%string ->
      f (Str.strip before) = g (Str.strip before)) ->
  split_comment value f comment_prefixes = split_comment value g comment_prefixes.
Proof.
  intros Hwhole Hleft. unfold split_comment.
  destruct (List.filter _ (Str.chars comment_prefixes)) as [|p rest] eqn:Hf.
  { cbn [orb]. rewrite Hwhole. reflexivity. }
  cbn [orb]. destruct (1 <? _)%nat; [rewrite Hwhole; reflexivity|].
  destruct (existsb _ _); [reflexivity|].
  pose proof (filter_head _ _ _ _ Hf) as Hp. cbn beta in Hp.
  destruct (split_in_2_at_char p _ Hp) as (before & after & Hsplit & Hs & _).
  rewrite Hsplit. cbn [bind]. rewrite (Hleft before p after Hs). reflexivity.
Qed.

Lemma split_comment_returns {T} (value : string) (f : string -> T)
    (comment_prefixes : string) :
  exists entry, split_comment value (fun part => Return (f part)) comment_prefixes
                = Return entry.
Proof.
  unfold split_comment.
  destruct (List.filter _ (Str.chars comment_prefixes)) as [|p rest] eqn:Hf.
  { eexists. reflexivity. }
  cbn [orb]. destruct (1 <? _)%nat; [eexists; reflexivity|].
  destruct (existsb _ _); [eexists; reflexivity|].
  pose proof (filter_head _ _ _ _ Hf) as Hp. cbn beta in Hp.
  destruct (split_in_2_at_char p _ Hp) as (before & after & Hsplit & _ & _).
  rewrite Hsplit. eexists. reflexivity.
Qed.

(** A line in which no comment prefix occurs is converted as a whole. *)
Lemma split_comment_no_prefix {T} (value : string) (f : string -> T)
    (comment_prefixes : string) :
  (forall q, In q (Str.chars comment_prefixes) ->
             Str.has_char q (Str.strip value) = false) ->
  split_comment value (fun part => Return (f part)) comment_prefixes
  = Return (Commented.mk (Given (f (Str.strip value))) None).
Proof.
  intros Hnone. unfold split_comment. rewrite (filter_none _ _ Hnone). reflexivity.
Qed.

Lemma _split_pure {T} (sep : string) (g : string -> T) (part : string) :
  Str.is_empty sep = false ->
  _split sep (fun v => Return (g v)) part = Return (line_elements sep g part).
Proof.
  intros Hsep. unfold _split, str_split, line_elements. rewrite Hsep.
  cbn [bind]. apply mapM_pure.
Qed.

(** The separator extended by a line feed is not found in a text without
    line feed: the text is one piece. *)
Lemma _split_sentinel {T} (sep : string) (g : string -> T) (part : string) :
  Str.has_char Str.LF part = false ->
  _split (sep ++ newline) (fun v => Return (g v)) part = Return (whole_line g part).
Proof.
  intros Hpart. rewrite _split_pure by apply append_nonempty.
  unfold line_elements, whole_line, Str.split_nonempty.
  destruct part as [|c part]; [reflexivity|].
  cbn [String.length Str.split_fuel].
  rewrite (partition_not_found _ _ Str.LF); [reflexivity| |exact Hpart].
  unfold newline. rewrite has_char_app. cbn [Str.has_char].
  rewrite Ascii.eqb_refl. apply orb_true_r.
Qed.

Lemma split_list_unfold {T} (value sep : string) (coerce_fn : string -> outcome T)
    (subsplit_dangling : bool) (comment_prefixes : string) :
  split_list value sep coerce_fn subsplit_dangling comment_prefixes
  = let* entries :=
      mapM (fun v =>
              split_comment v
                (_split (if negb subsplit_dangling
                            && (1 <? length (Str.splitlines (Str.strip value)))%nat
                         then (sep ++ newline)%string else sep) coerce_fn)
                (Str.replace sep "" comment_prefixes))
        (Str.splitlines (Str.strip value)) in
    Return (CommentedList.init entries).
Proof. reflexivity. Qed.

(** C5, as stated, fails: a piece is dropped when it is empty before it is
    stripped, so that a piece of blanks stays, as the empty text. *)
Lemma split_list_keeps_blank_piece :
  split_list "a, ,b" "," (fun v => Return (noop v)) true CP
  = Return (CommentedList.init [Commented.mk (Given ["a"; ""; "b"]) None])
  /\ elements_as_specified "," noop "a, ,b" = ["a"; "b"]
  /\ split_list "a, ,b" "," (fun v => Return (noop v)) true CP
     <> Return (CommentedList.init
                  [Commented.mk (Given (elements_as_specified "," noop "a, ,b")) None]).
Proof. split; [reflexivity|split; [reflexivity|discriminate]]. Qed.

(** C5, amended.  Whenever [split_list] returns, there is one entry for
    each physical line of the stripped input.  For a separator that is not
    empty and a conversion [g] that does not raise, [split_list] does
    return.  With [subsplit_dangling] on,
    the entry of a line is what [split_comment] makes of the line when
    the text before the comment is cut at [sep], the empty pieces are
    dropped, and the pieces left are stripped and converted; for a line
    without comment prefix, those are the elements of the stripped line
    and there is no comment. *)
Theorem split_list_entries {T} (value sep : string) (g : string -> T)
    (comment_prefixes : string) :
  sep <> EmptyString ->
  (forall (coerce_fn : string -> outcome T) subsplit_dangling result,
      split_list value sep coerce_fn subsplit_dangling comment_prefixes = Return result ->
      length (CommentedList.data result) = length (Str.splitlines (Str.strip value)))
  /\ (forall subsplit_dangling,
      exists entries,
        split_list value sep (fun v => Return (g v)) subsplit_dangling comment_prefixes
        = Return (CommentedList.init entries)
        /\ length entries = length (Str.splitlines (Str.strip value)))
  /\ exists entries,
       split_list value sep (fun v => Return (g v)) true comment_prefixes
       = Return (CommentedList.init entries)
       /\ Forall2
            (fun line entry =>
               split_comment line (fun part => Return (line_elements sep g part))
                 (Str.replace sep "" comment_prefixes) = Return entry
               /\ ((forall q, In q (Str.chars (Str.replace sep "" comment_prefixes)) ->
                              Str.has_char q (Str.strip line) = false) ->
                   entry = Commented.mk (Given (line_elements sep g (Str.strip line))) None))
            (Str.splitlines (Str.strip value)) entries.
Proof.
  intros Hsep.
  assert (Hne : Str.is_empty sep = false) by (destruct sep; [contradiction|reflexivity]).
  split; [|split].
  - intros coerce_fn flag result. rewrite split_list_unfold.
    destruct (mapM _ _) as [entries|e] eqn:Hrun; [|discriminate].
    intros [= <-]. apply mapM_length in Hrun. exact Hrun.
  - intros flag. rewrite split_list_unfold.
    set (sep' := if negb flag && (1 <? length (Str.splitlines (Str.strip value)))%nat
                 then (sep ++ newline)%string else sep).
    assert (Hne' : Str.is_empty sep' = false).
    { subst sep'. destruct (negb flag && _); [apply append_nonempty|exact Hne]. }
    destruct (mapM_returns
                (fun v => split_comment v (_split sep' (fun v => Return (g v)))
                            (Str.replace sep "" comment_prefixes))
                (Str.splitlines (Str.strip value))) as (entries & Hrun & Hall).
    { intros line _.
      destruct (split_comment_returns line (line_elements sep' g)
                  (Str.replace sep "" comment_prefixes)) as [entry Hentry].
      exists entry. rewrite <- Hentry.
      apply split_comment_ext; intros; apply _split_pure; exact Hne'. }
    exists entries. rewrite Hrun. split; [reflexivity|].
    symmetry. exact (Forall2_length _ _ _ Hall).
  - rewrite split_list_unfold. cbn [negb andb].
    destruct (mapM_returns
                (fun v => split_comment v (_split sep (fun v => Return (g v)))
                            (Str.replace sep "" comment_prefixes))
                (Str.splitlines (Str.strip value))) as (entries & Hrun & Hall).
    { intros line _.
      destruct (split_comment_returns line (line_elements sep g)
                  (Str.replace sep "" comment_prefixes)) as [entry Hentry].
      exists entry. rewrite <- Hentry.
      apply split_comment_ext; intros; apply _split_pure; exact Hne. }
    exists entries. rewrite Hrun. split; [reflexivity|].
    apply (Forall2_impl_in _ _ _ _ Hall). intros line entry _ Hentry.
    assert (Hpure : split_comment line (fun part => Return (line_elements sep g part))
                      (Str.replace sep "" comment_prefixes) = Return entry).
    { rewrite <- Hentry. symmetry.
      apply split_comment_ext; intros; apply _split_pure; exact Hne. }
    split; [exact Hpure|].
    intros Hnone. rewrite (split_comment_no_prefix _ _ _ Hnone) in Hpure.
    injection Hpure as <-. reflexivity.
Qed.

Lemma split_list_entries_witness :
  (forall (coerce_fn : string -> outcome string) subsplit_dangling result,
      split_list "a, b ,c" "," coerce_fn subsplit_dangling CP = Return result ->
      length (CommentedList.data result)
      = length (Str.splitlines (Str.strip "a, b ,c")))
  /\ (forall subsplit_dangling,
      exists entries,
        split_list "a, b ,c" "," (fun v => Return (noop v)) subsplit_dangling CP
        = Return (CommentedList.init entries)
        /\ length entries = length (Str.splitlines (Str.strip "a, b ,c")))
  /\ exists entries,
       split_list "a, b ,c" "," (fun v => Return (noop v)) true CP
       = Return (CommentedList.init entries)
       /\ Forall2
            (fun line entry =>
               split_comment line (fun part => Return (line_elements "," noop part))
                 (Str.replace "," "" CP) = Return entry
               /\ ((forall q, In q (Str.chars (Str.replace "," "" CP)) ->
                              Str.has_char q (Str.strip line) = false) ->
                   entry = Commented.mk (Given (line_elements "," noop (Str.strip line))) None))
            (Str.splitlines (Str.strip "a, b ,c")) entries.
Proof.
  apply (split_list_entries "a, b ,c" "," (@noop string) CP). discriminate.
Defined.

Lemma split_comment_sentinel {T} (line sep : string) (g : string -> T)
    (comment_prefixes : string) :
  Str.has_char Str.LF line = false ->
  split_comment line (_split (sep ++ newline) (fun v => Return (g v))) comment_prefixes
  = split_comment line (fun part => Return (whole_line g part)) comment_prefixes.
Proof.
  intros Hline. apply has_char_strip in Hline.
  apply split_comment_ext.
  - apply _split_sentinel. exact Hline.
  - intros before p after Hs. apply _split_sentinel, has_char_strip.
    rewrite Hs, has_char_app in Hline. apply orb_false_iff in Hline as [Hline _].
    exact Hline.
Qed.

(** C7, as stated, fails: of the three lines of the input below the middle
    one is empty, and its entry has no element at all, where the line
    taken as one whole element would be the empty text. *)
Lemma split_list_blank_line_has_no_element :
  Str.splitlines (Str.strip ("a" ++ newline ++ newline ++ "b")) = ["a"; ""; "b"]
  /\ split_list ("a" ++ newline ++ newline ++ "b") "," (fun v => Return (noop v))
       false CP
     = Return (CommentedList.init
                 [Commented.mk (Given ["a"]) None; Commented.mk (Given []) None;
                  Commented.mk (Given ["b"]) None])
  /\ split_list ("a" ++ newline ++ newline ++ "b") "," (fun v => Return (noop v))
       false CP
     <> Return (CommentedList.init
                  (map (fun line => Commented.mk (Given [noop line]) None)
                     ["a"; ""; "b"])).
Proof. split; [reflexivity|split; [reflexivity|discriminate]]. Qed.

(** C7, amended.  For an input of more than one physical line, with
    [subsplit_dangling] off and a conversion [g] that does not raise,
    whatever the separator: [split_list] returns, and the entry of a line
    is what [split_comment] makes of the line when the text before the
    comment is taken as one element, or as no element when it is empty.
    For a line without comment prefix, the entry has the stripped line as
    its one element, or no element when the line is blank, and no
    comment. *)
Theorem split_list_whole_lines {T} (value sep : string) (g : string -> T)
    (comment_prefixes : string) :
  1 < length (Str.splitlines (Str.strip value)) ->
  exists entries,
    split_list value sep (fun v => Return (g v)) false comment_prefixes
    = Return (CommentedList.init entries)
    /\ Forall2
         (fun line entry =>
            split_comment line (fun part => Return (whole_line g part))
              (Str.replace sep "" comment_prefixes) = Return entry
            /\ ((forall q, In q (Str.chars (Str.replace sep "" comment_prefixes)) ->
                           Str.has_char q (Str.strip line) = false) ->
                entry = Commented.mk
                          (Given (if Str.is_empty (Str.strip line) then []
                                  else [g (Str.strip line)])) None))
         (Str.splitlines (Str.strip value)) entries.
Proof.
  intros Hlines. rewrite split_list_unfold.
  apply Nat.ltb_lt in Hlines. rewrite Hlines. cbn [negb andb].
  destruct (mapM_returns
              (fun v => split_comment v (_split (sep ++ newline) (fun v => Return (g v)))
                          (Str.replace sep "" comment_prefixes))
              (Str.splitlines (Str.strip value))) as (entries & Hrun & Hall).
  { intros line Hin.
    destruct (split_comment_returns line (whole_line g)
                (Str.replace sep "" comment_prefixes)) as [entry Hentry].
    exists entry. rewrite <- Hentry.
    apply split_comment_sentinel, (splitlines_no_LF _ _ Hin). }
  exists entries. rewrite Hrun. split; [reflexivity|].
  apply (Forall2_impl_in _ _ _ _ Hall). intros line entry Hin Hentry.
  rewrite (split_comment_sentinel _ _ _ _ (splitlines_no_LF _ _ Hin)) in Hentry.
  split; [exact Hentry|].
  intros Hnone. rewrite (split_comment_no_prefix _ _ _ Hnone) in Hentry.
  injection Hentry as <-. unfold whole_line. rewrite strip_idempotent. reflexivity.
Qed.

Lemma split_list_whole_lines_witness :
  exists entries,
    split_list ("a,b" ++ newline ++ "c,d") "," (fun v => Return (noop v)) false CP
    = Return (CommentedList.init entries)
    /\ Forall2
         (fun line entry =>
            split_comment line (fun part => Return (whole_line noop part))
              (Str.replace "," "" CP) = Return entry
            /\ ((forall q, In q (Str.chars (Str.replace "," "" CP)) ->
                           Str.has_char q (Str.strip line) = false) ->
                entry = Commented.mk
                          (Given (if Str.is_empty (Str.strip line) then []
                                  else [noop (Str.strip line)])) None))
         (Str.splitlines (Str.strip ("a,b" ++ newline ++ "c,d"))) entries.
Proof.
  apply (split_list_whole_lines ("a,b" ++ newline ++ "c,d") "," (@noop string) CP).
  vm_compute. lia.
Defined.

(** The examples of the specification. *)
Example split_list_examples :
  split_list "a, b ,c" "," (fun v => Return (noop v)) true CP
  = Return (CommentedList.init [Commented.mk (Given ["a"; "b"; "c"]) None])
  /\ split_list ("a,b" ++ newline ++ "c,d") "," (fun v => Return (noop v)) true CP
     = Return (CommentedList.init
                 [Commented.mk (Given ["a"; "b"]) None;
                  Commented.mk (Given ["c"; "d"]) None])
  /\ split_list ("a,b" ++ newline ++ "c,d") "," (fun v => Return (noop v)) false CP
     = Return (CommentedList.init
                 [Commented.mk (Given ["a,b"]) None; Commented.mk (Given ["c,d"]) None])
  /\ split_list ("a # x" ++ newline ++ "# y" ++ newline ++ "b,c")
       "," (fun v => Return (noop v)) false CP
     = Return (CommentedList.init
                 [Commented.mk (Given ["a"]) (Some "x");
                  Commented.mk NOT_GIVEN (Some "y");
                  Commented.mk (Given ["b,c"]) None]).
Proof. repeat split. Qed.

(** ** [CommentedList.as_toml_obj] *)

Lemma append_values {T} (values : list T) (out : Array T) :
  fold_left (fun out value => array_append out (item value)) values out
  = mkArray (arr_multiline out) (arr_body out ++ map item values) (arr_comment out).
Proof.
  revert out. induction values as [|v values IH]; intros out; cbn [fold_left map].
  - rewrite app_nil_r. destruct out; reflexivity.
  - rewrite IH. unfold array_append. cbn. rewrite <- app_assoc. reflexivity.
Qed.

Lemma items_last_commented_snoc {T} (cmt : string) (values : list T) (v : T) :
  items_last_commented cmt (values ++ [v]) = map item values ++ [Value v (Some cmt)].
Proof.
  induction values as [|w values IH]; [reflexivity|].
  cbn [app map]. rewrite <- IH.
  destruct values; reflexivity.
Qed.

Lemma comment_last_item {T} (body : list (Item T)) (values : list T) (cmt : string) m c :
  values <> [] ->
  _add_comment_array_last_item (mkArray m (body ++ map item values) c) cmt
  = Return (mkArray m (body ++ items_last_commented cmt values) c).
Proof.
  intros Hne.
  destruct (exists_last Hne) as (init & v & ->).
  rewrite items_last_commented_snoc, map_app, !app_assoc.
  unfold _add_comment_array_last_item. cbn [arr_body arr_multiline arr_comment map].
  rewrite last_snoc, removelast_last. reflexivity.
Qed.

Lemma commented_list_loop_multiline {T} (entries : list (Commented.t (list T)))
    (out : Array T) (self_comment : option string) :
  CommentedList.as_toml_obj_loop true entries out self_comment
  = Return (mkArray (arr_multiline out)
              (arr_body out ++ concat (map entry_elements entries))
              (arr_comment out), self_comment).
Proof.
  revert out. induction entries as [|entry entries IH]; intros out.
  - cbn. rewrite app_nil_r. destruct out; reflexivity.
  - cbn [CommentedList.as_toml_obj_loop map concat]. rewrite append_values.
    unfold entry_elements at 1.
    destruct (Commented.has_comment entry), (Commented.comment entry) as [cmt|];
      cbn [negb]; try (rewrite IH; cbn; rewrite <- app_assoc; reflexivity).
    destruct (Commented.value_or entry []) as [|v values] eqn:Hv.
    + cbn [length Nat.ltb Nat.leb map app]. rewrite IH.
      cbn. rewrite <- !app_assoc. reflexivity.
    + cbn [length Nat.ltb Nat.leb]. rewrite comment_last_item by discriminate.
      cbn [bind]. rewrite IH. cbn. rewrite <- app_assoc. reflexivity.
Qed.

(** C4. [as_toml_obj] returns an array for every [CommentedList].
    - The array is multi-line exactly when the list has more than one
      entry.
    - With one entry, the elements are the values of the entry and the
      comment of the entry, if it has one, is the comment of the array.
    - With more entries, the array has no comment of its own and each
      entry gives its elements in turn: its comment is on the last of its
      elements, or is a full-line comment when it has no element.
    - For ["x # c1"; "y"], the comment [c1] is on the element [x]. *)
Theorem commented_list_as_toml_obj {T} (self : CommentedList.t T) :
  (exists out self',
      CommentedList.as_toml_obj self = Return (out, self')
      /\ (arr_multiline out = true <-> 1 < length (CommentedList.data self))
      /\ arr_body out =
           (if arr_multiline out
            then concat (map entry_elements (CommentedList.data self))
            else concat (map entry_values (CommentedList.data self)))
      /\ arr_comment out =
           match CommentedList.data self with
           | [entry] => entry_comment entry
           | _ => None
           end)
  /\ (split_list ("x # c1" ++ newline ++ "y") "," (fun v => Return (noop v)) true CP
      = Return (CommentedList.init
                  [Commented.mk (Given ["x"]) (Some "c1"); Commented.mk (Given ["y"]) None])
      /\ CommentedList.as_toml_obj
           (CommentedList.init
              [Commented.mk (Given ["x"]) (Some "c1"); Commented.mk (Given ["y"]) None])
         = Return (mkArray true [Value "x" (Some "c1"); Value "y" None] None,
                   CommentedList.init
                     [Commented.mk (Given ["x"]) (Some "c1");
                      Commented.mk (Given ["y"]) None])).
Proof.
  split; [|split; reflexivity].
  destruct self as [data self_comment]. unfold CommentedList.as_toml_obj.
  cbn [CommentedList.data CommentedList.comment].
  destruct data as [|entry [|entry' data]].
  - do 2 eexists. cbn. repeat split; try reflexivity; try discriminate.
    intros H. inversion H.
  - cbn [length Nat.ltb Nat.leb CommentedList.as_toml_obj_loop]. rewrite append_values.
    unfold entry_comment, entry_values.
    destruct (Commented.has_comment entry), (Commented.comment entry) as [cmt|];
      cbn [negb bind]; do 2 eexists; (split; [reflexivity|]);
      cbn [arr_multiline arr_body arr_comment array_multiline array array_comment
           map concat app];
      rewrite ?app_nil_r; repeat split; try reflexivity; try discriminate;
      intros H; cbn in H; lia.
  - change (1 <? length (entry :: entry' :: data))%nat with true.
    rewrite commented_list_loop_multiline. cbn [bind].
    do 2 eexists. split; [reflexivity|].
    cbn [arr_multiline arr_body arr_comment array_multiline array app].
    repeat split; try reflexivity. intros _. cbn. lia.
Qed.

(** ** [CommentedKV.as_toml_obj] *)

(** C6 at ["a=1"; "=2 # c"].  The second line sets the empty key, so that
    [k] is the empty text when the comment is placed: [if k] takes it for
    no key at all, and the comment [c] is appended as a full-line comment
    instead of going to the value [2] under the key that the entry set. *)
Theorem commented_kv_empty_key_comment :
  split_kv_pairs ("a=1" ++ newline ++ "=2 # c") "=" (fun v => Return (noop v)) ","
    true CP
  = Return (CommentedKV.init
              [Commented.mk (Given [("a", "1")]) None;
               Commented.mk (Given [("", "2")]) (Some "c")])
  /\ CommentedKV.as_toml_obj
       (CommentedKV.init
          [Commented.mk (Given [("a", "1")]) None;
           Commented.mk (Given [("", "2")]) (Some "c")])
     = Return (mkTable false
                 [(Some "a", Value "1" None); (Some "", Value "2" None);
                  (None, Comment "c")]
                 None,
               CommentedKV.init
                 [Commented.mk (Given [("a", "1")]) None;
                  Commented.mk (Given [("", "2")]) (Some "c")]).
Proof. split; reflexivity. Qed.

(** Within the pairs of one entry the last assignment to a key wins. *)
Lemma body_set_find_same {T} (k : string) (it : Item T) body :
  find (is_key k) (body_set k it body) = Some (Some k, it).
Proof.
  induction body as [|e body IH]; cbn [body_set].
  - cbn. unfold is_key. cbn. rewrite String.eqb_refl. reflexivity.
  - destruct (is_key k e) eqn:He.
    + cbn [find]. unfold is_key at 1. cbn. rewrite String.eqb_refl. reflexivity.
    + cbn [find]. rewrite He. exact IH.
Qed.

Lemma body_set_find_other {T} (k k' : string) (it : Item T) body :
  k <> k' -> find (is_key k') (body_set k it body) = find (is_key k') body.
Proof.
  intros Hne.
  assert (Hk : is_key k' (Some k, it) = false).
  { unfold is_key. cbn. apply String.eqb_neq. congruence. }
  induction body as [|e body IH]; cbn [body_set].
  - cbn [find]. rewrite Hk. reflexivity.
  - destruct (is_key k e) eqn:He.
    + cbn [find]. rewrite Hk.
      assert (He' : is_key k' e = false).
      { unfold is_key in *. destruct e as [[k0|] it0]; cbn in *; [|reflexivity].
        apply String.eqb_eq in He as <-. apply String.eqb_neq. congruence. }
      rewrite He'. reflexivity.
    + cbn [find]. destruct (is_key k' e); [reflexivity|exact IH].
Qed.

Lemma table_getitem_setitem {T} (t : Table T) (k k' : string) (it : Item T) :
  table_getitem (table_setitem t k it) k'
  = if String.eqb k k' then Some it else table_getitem t k'.
Proof.
  unfold table_getitem, table_setitem. cbn [tbl_body].
  destruct (String.eqb k k') eqn:E.
  - apply String.eqb_eq in E as <-. rewrite body_set_find_same. reflexivity.
  - apply String.eqb_neq in E. rewrite (body_set_find_other _ _ _ _ E). reflexivity.
Qed.

Lemma set_pairs_snoc {T} (out : Table T) (values : list (string * T)) k v :
  CommentedKV.set_pairs out (values ++ [(k, v)])
  = (table_setitem (fst (CommentedKV.set_pairs out values)) k (item v), Some k).
Proof.
  unfold CommentedKV.set_pairs. rewrite fold_left_app. cbn [fold_left].
  destruct (fold_left _ values (out, None)). reflexivity.
Qed.

Lemma set_pairs_last_write_wins {T} (out : Table T) (values : list (string * T)) k :
  table_getitem (fst (CommentedKV.set_pairs out values)) k
  = match find (fun kv => String.eqb (fst kv) k) (rev values) with
    | Some kv => Some (item (snd kv))
    | None => table_getitem out k
    end.
Proof.
  induction values as [|[k1 v1] values IH] using rev_ind; [reflexivity|].
  rewrite set_pairs_snoc, rev_unit. cbn [fst snd find].
  rewrite table_getitem_setitem. destruct (String.eqb k1 k); [reflexivity|exact IH].
Qed.

(** With a key that is not empty the comment goes to the value. *)
Example commented_kv_comment_on_last_key :
  CommentedKV.as_toml_obj
    (CommentedKV.init
       [Commented.mk (Given [("a", "1")]) None;
        Commented.mk (Given [("b", "2")]) (Some "c")])
  = Return (mkTable false
              [(Some "a", Value "1" None); (Some "b", Value "2" (Some "c"))] None,
            CommentedKV.init
              [Commented.mk (Given [("a", "1")]) None;
               Commented.mk (Given [("b", "2")]) (Some "c")]).
Proof. reflexivity. Qed.

(** ** Materialization and the [comment] attribute *)

Lemma append_values_comment {T} (values : list T) (out : Array T) :
  arr_comment (fold_left (fun out value => array_append out (item value)) values out)
  = arr_comment out.
Proof. rewrite append_values. reflexivity. Qed.

Lemma set_pairs_comment {T} (out : Table T) (values : list (string * T)) :
  tbl_comment (fst (CommentedKV.set_pairs out values)) = tbl_comment out.
Proof.
  unfold CommentedKV.set_pairs. generalize (@None string) as ko. revert out.
  induction values as [|[k v] values IH]; intros out ko; [reflexivity|].
  cbn [fold_left]. rewrite IH. reflexivity.
Qed.

(** What [as_toml_obj] returns is a node: it has the method [comment]. *)
Lemma call_as_toml_obj_node (value : processed) (obj : pyvalue) (value' : processed)
    (text : string) :
  call_as_toml_obj value = Return (obj, value') ->
  exists stored, node_comment obj text = Some stored.
Proof.
  destruct value as [v|c|c|c]; cbn [call_as_toml_obj].
  - discriminate.
  - intros [= <- _]. eexists. reflexivity.
  - destruct (CommentedList.as_toml_obj c) as [[o c']|]; [|discriminate].
    cbn [bind]. intros [= <- _]. eexists. reflexivity.
  - destruct (CommentedKV.as_toml_obj c) as [[o c']|]; [|discriminate].
    cbn [bind]. intros [= <- _]. eexists. reflexivity.
Qed.

Lemma add_to_container_reads_comment_after
    (container : gmap string pyvalue) (field : string)
    (value value' : processed) (obj obj' : pyvalue) (text : string) :
  (forall v, value <> Plain v) ->
  call_as_toml_obj value = Return (obj, value') ->
  attr_comment value' = Some text ->
  node_comment obj text = Some obj' ->
  _add_to_container container field value = Return (<[field := obj']> container).
Proof.
  intros Hrepr Hcall Hattr Hnode. unfold _add_to_container.
  destruct value as [v|c|c|c]; [destruct (Hrepr v); reflexivity| | |];
    rewrite Hcall; cbn [bind]; rewrite Hattr, Hnode, insert_insert_eq; reflexivity.
Qed.

(** C10. For a representation with the single entry [entry], whose comment
    is [cmt] and not empty, and whatever its [comment] attribute [before]:
    [as_toml_obj] returns the node, which carries [cmt], together with the
    representation whose attribute has become [cmt], for a
    [CommentedList] and for a [CommentedKV]; and [_add_to_container]
    stores under [field] that node commented with [cmt], not with
    [before].  For every representation, [_add_to_container] stores the
    node that [as_toml_obj] returns, commented with the attribute as the
    call leaves it whenever that attribute is not [None].  The comment is
    really attached by [_add_to_container]: for a single entry without
    comment, [as_toml_obj] leaves the attribute as it is and returns a
    node without comment, and the stored node carries the attribute. *)
Theorem as_toml_obj_sets_comment
    (container : gmap string pyvalue) (field : string) (cmt : string)
    (before : option string)
    (values : maybe_given (list pyvalue))
    (pairs : maybe_given (list (string * pyvalue))) :
  Str.is_empty cmt = false ->
  (exists out,
      CommentedList.as_toml_obj
        (CommentedList.mk [Commented.mk values (Some cmt)] before)
      = Return (out, CommentedList.mk [Commented.mk values (Some cmt)] (Some cmt))
      /\ arr_comment out = Some cmt
      /\ _add_to_container container field
           (OfCommentedList (CommentedList.mk [Commented.mk values (Some cmt)] before))
         = Return (<[field := TomlArray (array_comment out cmt)]> container))
  /\ (exists out,
      CommentedKV.as_toml_obj
        (CommentedKV.mk [Commented.mk pairs (Some cmt)] before)
      = Return (out, CommentedKV.mk [Commented.mk pairs (Some cmt)] (Some cmt))
      /\ tbl_comment out = Some cmt
      /\ _add_to_container container field
           (OfCommentedKV (CommentedKV.mk [Commented.mk pairs (Some cmt)] before))
         = Return (<[field := TomlTable (table_comment out cmt)]> container))
  /\ (forall value obj value',
      (forall v, value <> Plain v) ->
      call_as_toml_obj value = Return (obj, value') ->
      match attr_comment value' with
      | Some text =>
          exists stored,
            node_comment obj text = Some stored
            /\ _add_to_container container field value
               = Return (<[field := stored]> container)
      | None =>
          _add_to_container container field value = Return (<[field := obj]> container)
      end)
  /\ (forall text,
      (exists out,
          CommentedList.as_toml_obj
            (CommentedList.mk [Commented.mk values None] (Some text))
          = Return (out, CommentedList.mk [Commented.mk values None] (Some text))
          /\ arr_comment out = None
          /\ _add_to_container container field
               (OfCommentedList (CommentedList.mk [Commented.mk values None] (Some text)))
             = Return (<[field := TomlArray (array_comment out text)]> container)
          /\ arr_comment (array_comment out text) = Some text)
      /\ (exists out,
          CommentedKV.as_toml_obj
            (CommentedKV.mk [Commented.mk pairs None] (Some text))
          = Return (out, CommentedKV.mk [Commented.mk pairs None] (Some text))
          /\ tbl_comment out = None
          /\ _add_to_container container field
               (OfCommentedKV (CommentedKV.mk [Commented.mk pairs None] (Some text)))
             = Return (<[field := TomlTable (table_comment out text)]> container)
          /\ tbl_comment (table_comment out text) = Some text)).
Proof.
  intros Hcmt.
  assert (Hlist : forall T (vs : maybe_given (list T)),
             exists out,
               CommentedList.as_toml_obj
                 (CommentedList.mk [Commented.mk vs (Some cmt)] before)
               = Return (out, CommentedList.mk [Commented.mk vs (Some cmt)] (Some cmt))
               /\ arr_comment out = Some cmt).
  { intros T vs. eexists. unfold CommentedList.as_toml_obj.
    cbn [CommentedList.data length Nat.ltb Nat.leb].
    cbn [CommentedList.as_toml_obj_loop Commented.has_comment Commented.comment].
    rewrite Hcmt. cbn [negb bind]. split; reflexivity. }
  assert (Hkv : forall T (ps : maybe_given (list (string * T))),
             exists out,
               CommentedKV.as_toml_obj
                 (CommentedKV.mk [Commented.mk ps (Some cmt)] before)
               = Return (out, CommentedKV.mk [Commented.mk ps (Some cmt)] (Some cmt))
               /\ tbl_comment out = Some cmt).
  { intros T ps. unfold CommentedKV.as_toml_obj.
    cbn [CommentedKV.data length Nat.ltb Nat.leb].
    cbn [CommentedKV.as_toml_obj_loop Commented.has_comment Commented.comment].
    destruct (CommentedKV.set_pairs _ _) as [out k].
    rewrite Hcmt. cbn [negb bind]. eexists. split; reflexivity. }
  assert (Hlist0 : forall T (vs : maybe_given (list T)) text,
             exists out,
               CommentedList.as_toml_obj
                 (CommentedList.mk [Commented.mk vs None] (Some text))
               = Return (out, CommentedList.mk [Commented.mk vs None] (Some text))
               /\ arr_comment out = None).
  { intros T vs text. eexists. unfold CommentedList.as_toml_obj.
    cbn [CommentedList.data length Nat.ltb Nat.leb].
    cbn [CommentedList.as_toml_obj_loop Commented.has_comment Commented.comment bind].
    split; [reflexivity|]. rewrite append_values_comment. reflexivity. }
  assert (Hkv0 : forall T (ps : maybe_given (list (string * T))) text,
             exists out,
               CommentedKV.as_toml_obj
                 (CommentedKV.mk [Commented.mk ps None] (Some text))
               = Return (out, CommentedKV.mk [Commented.mk ps None] (Some text))
               /\ tbl_comment out = None).
  { intros T ps text. unfold CommentedKV.as_toml_obj.
    cbn [CommentedKV.data length Nat.ltb Nat.leb].
    cbn [CommentedKV.as_toml_obj_loop Commented.has_comment Commented.comment].
    match goal with
    | |- context [CommentedKV.set_pairs ?o ?v] =>
        pose proof (set_pairs_comment o v) as Hc;
        destruct (CommentedKV.set_pairs o v) as [out k]
    end.
    cbn [bind]. eexists. split; [reflexivity|exact Hc]. }
  split; [|split; [|split; [|intros text; split]]].
  - destruct (Hlist pyvalue values) as (out & Hcall & Hout).
    exists out. split; [exact Hcall|split; [exact Hout|]].
    apply add_to_container_reads_comment_after
      with (value' := OfCommentedList
                        (CommentedList.mk [Commented.mk values (Some cmt)] (Some cmt)))
           (obj := TomlArray out) (text := cmt);
      [discriminate| |reflexivity|reflexivity].
    cbn [call_as_toml_obj]. rewrite Hcall. reflexivity.
  - destruct (Hkv pyvalue pairs) as (out & Hcall & Hout).
    exists out. split; [exact Hcall|split; [exact Hout|]].
    apply add_to_container_reads_comment_after
      with (value' := OfCommentedKV
                        (CommentedKV.mk [Commented.mk pairs (Some cmt)] (Some cmt)))
           (obj := TomlTable out) (text := cmt);
      [discriminate| |reflexivity|reflexivity].
    cbn [call_as_toml_obj]. rewrite Hcall. reflexivity.
  - intros value obj value' Hrepr Hcall.
    destruct (attr_comment value') as [text|] eqn:Hattr.
    + destruct (call_as_toml_obj_node value obj value' text Hcall) as [stored Hstored].
      exists stored. split; [exact Hstored|].
      apply (add_to_container_reads_comment_after _ _ _ _ _ _ _ Hrepr Hcall Hattr Hstored).
    + unfold _add_to_container.
      destruct value as [v|c|c|c]; [destruct (Hrepr v); reflexivity| | |];
        rewrite Hcall; cbn [bind]; rewrite Hattr; reflexivity.
  - destruct (Hlist0 pyvalue values text) as (out & Hcall & Hout).
    exists out. split; [exact Hcall|split; [exact Hout|split; [|reflexivity]]].
    apply add_to_container_reads_comment_after
      with (value' := OfCommentedList
                        (CommentedList.mk [Commented.mk values None] (Some text)))
           (obj := TomlArray out) (text := text);
      [discriminate| |reflexivity|reflexivity].
    cbn [call_as_toml_obj]. rewrite Hcall. reflexivity.
  - destruct (Hkv0 pyvalue pairs text) as (out & Hcall & Hout).
    exists out. split; [exact Hcall|split; [exact Hout|split; [|reflexivity]]].
    apply add_to_container_reads_comment_after
      with (value' := OfCommentedKV
                        (CommentedKV.mk [Commented.mk pairs None] (Some text)))
           (obj := TomlTable out) (text := text);
      [discriminate| |reflexivity|reflexivity].
    cbn [call_as_toml_obj]. rewrite Hcall. reflexivity.
Qed.

Lemma as_toml_obj_sets_comment_witness :
  (exists out,
      CommentedList.as_toml_obj
        (CommentedList.mk [Commented.mk (Given [PyStr "a"]) (Some "note")] (Some "old"))
      = Return (out, CommentedList.mk [Commented.mk (Given [PyStr "a"]) (Some "note")]
                       (Some "note"))
      /\ arr_comment out = Some "note"
      /\ _add_to_container ∅ "deps"
           (OfCommentedList
              (CommentedList.mk [Commented.mk (Given [PyStr "a"]) (Some "note")]
                 (Some "old")))
         = Return (<["deps" := TomlArray (array_comment out "note")]> ∅))
  /\ (exists out,
      CommentedList.as_toml_obj
        (CommentedList.mk [Commented.mk (Given [PyStr "a"]) None] (Some "kept"))
      = Return (out, CommentedList.mk [Commented.mk (Given [PyStr "a"]) None]
                       (Some "kept"))
      /\ arr_comment out = None
      /\ _add_to_container ∅ "deps"
           (OfCommentedList
              (CommentedList.mk [Commented.mk (Given [PyStr "a"]) None] (Some "kept")))
         = Return (<["deps" := TomlArray (array_comment out "kept")]> ∅)
      /\ arr_comment (array_comment out "kept") = Some "kept").
Proof.
  destruct (as_toml_obj_sets_comment ∅ "deps" "note" (Some "old")
              (Given [PyStr "a"]) (Given [("a", PyInt 1)]) eq_refl)
    as (Hlist & _ & _ & Hkept).
  split; [exact Hlist|exact (proj1 (Hkept "kept"))].
Defined.

(** ** The appliers *)

Lemma warnings_app log1 log2 : warnings (log1 ++ log2) = warnings log1 ++ warnings log2.
Proof. unfold warnings. apply List.filter_app. Qed.

Lemma unpack_last_snoc parent last : unpack_last (parent ++ [last]) = Some (parent, last).
Proof.
  induction parent as [|k parent IH]; [reflexivity|].
  cbn [app unpack_last]. rewrite IH.
  destruct (parent ++ [last]) eqn:E; [|reflexivity].
  destruct parent; discriminate.
Qed.

Lemma get_nested_resolves m keys v default :
  resolves m keys v -> get_nested m keys default = v.
Proof.
  induction 1 as [|d k x ks v Hk _ IH]; [reflexivity|].
  cbn. rewrite Hk. exact IH.
Qed.

Lemma get_nested_absent m keys default :
  absent m keys -> get_nested m keys default = default.
Proof.
  induction 1 as [d k ks Hk|d k x ks Hk _ IH]; cbn; rewrite Hk; [reflexivity|exact IH].
Qed.

(** C1. When the transformation raises an [Exception] on the value stored
    under [field], [apply] returns the container it was given, so that the
    value under [field] is still the same; the log has grown by one
    WARNING record, whose message holds the value and the name of its
    class, followed by one DEBUG record. *)
Theorem apply_contains_failure
    (container : gmap string pyvalue) (field : string) (fn : Transformation)
    (log : list LogRecord) (value : pyvalue) (e : exn) :
  container !! field = Some value ->
  fn value = Raise e ->
  isinstance_Exception e = true ->
  exists log',
    apply container field fn log = Return (container, log')
    /\ container !! field = Some value
    /\ warnings log' =
         warnings log ++ [mkLogRecord WARNING (impossible_to_transform value) false]
    /\ log' = log ++ [mkLogRecord WARNING (impossible_to_transform value) false;
                      mkLogRecord DEBUG [Lit "Please check the following details"] true].
Proof.
  intros Hfield Hfn Hexc.
  eexists. split; [|split; [exact Hfield|split; [|reflexivity]]].
  - unfold apply. rewrite Hfield, Hfn, Hexc, <- app_assoc. reflexivity.
  - rewrite warnings_app. reflexivity.
Qed.

Lemma apply_contains_failure_witness :
  exists log',
    apply {[ "version" := PyStr "1.0" ]} "version" (fun _ => Raise ValueError) []
    = Return ({[ "version" := PyStr "1.0" ]}, log')
    /\ ({[ "version" := PyStr "1.0" ]} : gmap string pyvalue) !! "version"
       = Some (PyStr "1.0")
    /\ warnings log' =
         warnings [] ++ [mkLogRecord WARNING (impossible_to_transform (PyStr "1.0")) false]
    /\ log' = [] ++ [mkLogRecord WARNING (impossible_to_transform (PyStr "1.0")) false;
                     mkLogRecord DEBUG [Lit "Please check the following details"] true].
Proof.
  apply (apply_contains_failure {[ "version" := PyStr "1.0" ]} "version"
           (fun _ => Raise ValueError) [] (PyStr "1.0") ValueError);
    [apply lookup_singleton_eq | reflexivity | reflexivity].
Defined.

(** C9. The lookup [container[field]] stands before the [try]: for a field
    that the container does not hold, [apply] raises [KeyError] — no
    container is returned and the transformation is not called. *)
Theorem apply_missing_field_raises
    (container : gmap string pyvalue) (field : string) (fn : Transformation)
    (log : list LogRecord) :
  container !! field = None ->
  apply container field fn log = Raise KeyError.
Proof. intros Hfield. unfold apply. rewrite Hfield. reflexivity. Qed.

Lemma apply_missing_field_raises_witness :
  apply {[ "version" := PyStr "1.0" ]} "name" (fun v => Return (Plain v)) []
  = Raise KeyError.
Proof.
  apply (apply_missing_field_raises {[ "version" := PyStr "1.0" ]} "name").
  apply lookup_singleton_ne. discriminate.
Defined.

(** C2, as stated, fails: the guard [if not nested] comes before the test
    of [isinstance].  Under ["metadata"] the container holds the empty
    text, which is not a mapping; for the path [metadata, name] the
    segment before the last resolves to it, and [apply_nested] returns the
    container as it was instead of raising. *)
Lemma apply_nested_falsy_parent_is_skipped :
  resolves (PyDict {[ "metadata" := PyStr "" ]}) ["metadata"] (PyStr "")
  /\ isinstance_MutableMapping (PyStr "") = false
  /\ apply_nested {[ "metadata" := PyStr "" ]} ["metadata"; "name"]
       (fun v => Return (Plain v)) []
     = Return ({[ "metadata" := PyStr "" ]}, [])
  /\ apply_nested {[ "metadata" := PyStr "" ]} ["metadata"; "name"]
       (fun v => Return (Plain v)) []
     <> Raise ValueError.
Proof.
  assert (Hget : ({[ "metadata" := PyStr "" ]} : gmap string pyvalue) !! "metadata"
                 = Some (PyStr "")) by apply lookup_singleton_eq.
  assert (Hrun : apply_nested {[ "metadata" := PyStr "" ]} ["metadata"; "name"]
                   (fun v => Return (Plain v)) []
                 = Return ({[ "metadata" := PyStr "" ]}, [])).
  { unfold apply_nested. cbn [unpack_last get_nested]. rewrite Hget. reflexivity. }
  split; [|split; [reflexivity|split; [exact Hrun|]]].
  - eapply resolves_step; [exact Hget|constructor].
  - rewrite Hrun. discriminate.
Qed.

(** C2, amended.  Let the segments before the last lead, through nested
    mappings, to a value that is not a mapping: [apply_nested] raises
    [ValueError] when that value is truthy, and returns the container and
    the log as they were when it is falsy ([None], [False], [0], an empty
    text or list).  When a segment before the last is missing from the
    mapping it is looked up in, the container and the log are returned as
    they were.  A path of length at least two is [parent ++ [last]] with
    [parent] not empty. *)
Theorem apply_nested_parent_not_mapping
    (container : gmap string pyvalue) (parent : list string) (last : string)
    (fn : Transformation) (log : list LogRecord) :
  (forall v,
      resolves (PyDict container) parent v ->
      isinstance_MutableMapping v = false ->
      apply_nested container (parent ++ [last]) fn log
      = if truthy v then Raise ValueError else Return (container, log))
  /\ (absent (PyDict container) parent ->
      apply_nested container (parent ++ [last]) fn log = Return (container, log)).
Proof.
  split.
  - intros v Hres Hmap. unfold apply_nested.
    rewrite unpack_last_snoc, (get_nested_resolves _ _ _ PyNone Hres).
    destruct (truthy v); [|reflexivity].
    cbn [negb]. rewrite Hmap. reflexivity.
  - intros Habs. unfold apply_nested.
    rewrite unpack_last_snoc, (get_nested_absent _ _ PyNone Habs). reflexivity.
Qed.

Lemma apply_nested_parent_not_mapping_witness :
  apply_nested {[ "metadata" := PyStr "setup" ]} (["metadata"] ++ ["name"])
    (fun v => Return (Plain v)) []
  = Raise ValueError
  /\ apply_nested {[ "metadata" := PyInt 0 ]} (["metadata"] ++ ["name"])
       (fun v => Return (Plain v)) []
     = Return ({[ "metadata" := PyInt 0 ]}, [])
  /\ apply_nested {[ "metadata" := PyStr "setup" ]} (["options"] ++ ["name"])
       (fun v => Return (Plain v)) []
     = Return ({[ "metadata" := PyStr "setup" ]}, []).
Proof.
  split; [|split].
  - apply (proj1 (apply_nested_parent_not_mapping {[ "metadata" := PyStr "setup" ]}
                    ["metadata"] "name" (fun v => Return (Plain v)) [])
             (PyStr "setup")); [|reflexivity].
    eapply resolves_step; [apply lookup_singleton_eq|constructor].
  - apply (proj1 (apply_nested_parent_not_mapping {[ "metadata" := PyInt 0 ]}
                    ["metadata"] "name" (fun v => Return (Plain v)) [])
             (PyInt 0)); [|reflexivity].
    eapply resolves_step; [apply lookup_singleton_eq|constructor].
  - apply (proj2 (apply_nested_parent_not_mapping {[ "metadata" := PyStr "setup" ]}
                    ["options"] "name" (fun v => Return (Plain v)) [])).
    apply absent_here. apply lookup_singleton_ne. discriminate.
Defined.

(** ** More on the simple value processors *)

Lemma lower_char_idempotent c : Str.lower_char (Str.lower_char c) = Str.lower_char c.
Proof. destruct c as [[] [] [] [] [] [] [] []]; reflexivity. Qed.

Lemma lower_idempotent s : Str.lower (Str.lower s) = Str.lower s.
Proof.
  induction s as [|c s IH]; [reflexivity|].
  cbn [Str.lower]. rewrite lower_char_idempotent, IH. reflexivity.
Qed.

Lemma in_tuple_In value options : in_tuple value options = true <-> In value options.
Proof.
  unfold in_tuple. rewrite existsb_exists. split.
  - intros (x & Hx & E). apply String.eqb_eq in E as ->. exact Hx.
  - intros H. exists value. split; [exact H|apply String.eqb_refl].
Qed.

Lemma is_true_not_is_false s : is_true s = true -> is_false s = false.
Proof.
  unfold is_true, is_false. intros H. apply in_tuple_In in H.
  destruct H as [<-|[<-|[<-|[<-|[]]]]]; reflexivity.
Qed.

(** X1. [coerce_bool] returns [True] exactly for the texts that [is_true]
    accepts, [False] exactly for those that [is_false] accepts, and raises
    [ValueError] exactly for the others; no text is accepted by both, and
    the case of the letters does not matter. *)
Theorem coerce_bool_cases (value : string) :
  (coerce_bool value = Return true <-> is_true value = true)
  /\ (coerce_bool value = Return false <-> is_false value = true)
  /\ (coerce_bool value = Raise ValueError
      <-> is_true value = false /\ is_false value = false)
  /\ coerce_bool (Str.lower value) = coerce_bool value.
Proof.
  unfold coerce_bool. repeat split.
  - destruct (is_true value); [reflexivity|]. destruct (is_false value); discriminate.
  - intros ->. reflexivity.
  - destruct (is_true value) eqn:Ht; [discriminate|]. destruct (is_false value); [reflexivity|discriminate].
  - intros Hf. destruct (is_true value) eqn:Ht; [|rewrite Hf; reflexivity].
    rewrite (is_true_not_is_false _ Ht) in Hf. discriminate.
  - destruct (is_true value); [discriminate|reflexivity].
  - destruct (is_true value); [discriminate|]. destruct (is_false value); [discriminate|reflexivity].
  - intros [-> ->]. reflexivity.
  - unfold is_true, is_false. rewrite lower_idempotent. reflexivity.
Qed.

Theorem is_float_ignores_signs (value : string) :
  is_float (String "+" value) = is_float value
  /\ is_float (String "-" value) = is_float value.
Proof. split; reflexivity. Qed.

(** X4. [is_float] ignores any run of leading plus and minus signs. *)
Lemma is_float_sign_run signs value :
  signs_only signs = true -> is_float (signs ++ value) = is_float value.
Proof.
  induction signs as [|c signs IH]; [reflexivity|].
  cbn [signs_only]. intros H. apply andb_true_iff in H as [Hc Hs].
  change (String c signs ++ value)%string with (String c (signs ++ value)%string).
  rewrite <- (IH Hs).
  cbn [Str.has_char] in Hc. rewrite orb_false_r in Hc.
  apply orb_true_iff in Hc as [Hc|Hc]; apply Ascii.eqb_eq in Hc as ->; reflexivity.
Qed.

Lemma digit_lower_char c : Str.isdigit_char (Str.lower_char c) = true -> Str.lower_char c = c.
Proof. destruct c as [[] [] [] [] [] [] [] []]; intros H; try discriminate H; reflexivity. Qed.

Lemma lower_eq_digits s digits :
  Str.all_digits digits = true -> Str.lower s = digits -> s = digits.
Proof.
  revert digits. induction s as [|c s IH]; intros [|d digits] Hd; cbn [Str.lower]; try discriminate.
  - reflexivity.
  - intros [= Hc Hs]. cbn [Str.all_digits] in Hd. apply andb_true_iff in Hd as [Hd Hds].
    rewrite <- Hc in Hd. rewrite (digit_lower_char c Hd) in Hc. rewrite Hc.
    f_equal. apply IH; assumption.
Qed.

Lemma coerce_bool_inv s b :
  coerce_bool s = Return b ->
  (b = true /\ is_true s = true) \/ (b = false /\ is_true s = false /\ is_false s = true).
Proof.
  unfold coerce_bool. destruct (is_true s); [intros [= <-]; left; split; reflexivity|].
  destruct (is_false s); [intros [= <-]; right; repeat split|discriminate].
Qed.

Ltac literal_case s HL :=
  destruct (Str.isdecimal s) eqn:Hdec;
  [ assert (Hall : Str.all_digits s = true) by (destruct s; [discriminate|exact Hdec]);
    rewrite (all_digits_lower s Hall) in HL; subst s;
    first [discriminate Hdec | reflexivity]
  | first
      [ apply lower_eq_digits in HL; [subst s; discriminate Hdec|reflexivity]
      | assert (Hfl : is_float s = false) by (unfold is_float; rewrite HL; reflexivity);
        rewrite Hfl; unfold is_true, is_false; rewrite HL; reflexivity ] ].

(** X2. On a text that [coerce_bool] converts, once stripped,
    [coerce_scalar] gives the same boolean, except for a text of digits
    (1 and 0), which it gives as the integer 1 or 0. *)
Theorem coerce_scalar_of_boolean
    (py_float : string -> option PrimFloat.float) (value : string) (b : bool) :
  coerce_bool (Str.strip value) = Return b ->
  coerce_scalar py_float value
  = Return (if Str.isdecimal (Str.strip value)
            then PyInt (if b then 1 else 0) else PyBool b).
Proof.
  unfold coerce_scalar. generalize (Str.strip value) as s. intros s H.
  destruct (coerce_bool_inv s b H) as [[-> Ht]|(-> & _ & Hf)].
  - unfold is_true in Ht. apply in_tuple_In in Ht.
    destruct Ht as [HL|[HL|[HL|[HL|[]]]]]; symmetry in HL; literal_case s HL.
  - unfold is_false in Hf. apply in_tuple_In in Hf.
    destruct Hf as [HL|[HL|[HL|[HL|[HL|[HL|[HL|[]]]]]]]]; symmetry in HL; literal_case s HL.
Qed.

Lemma coerce_scalar_of_boolean_witness :
  coerce_scalar float_of_zero " Off "
  = Return (if Str.isdecimal (Str.strip " Off ")
            then PyInt (if false then 1 else 0) else PyBool false).
Proof. apply (coerce_scalar_of_boolean float_of_zero " Off " false). reflexivity. Defined.

(** X3. A text that [coerce_scalar] returns is the stripped input, and
    [coerce_scalar] returns it again unchanged when applied to it. *)
Theorem coerce_scalar_text_is_fixed
    (py_float : string -> option PrimFloat.float) (value text : string) :
  coerce_scalar py_float value = Return (PyStr text) ->
  text = Str.strip value /\ coerce_scalar py_float text = Return (PyStr text).
Proof.
  intros H.
  assert (Hs : coerce_scalar py_float (Str.strip value) = coerce_scalar py_float value).
  { unfold coerce_scalar. rewrite strip_idempotent. reflexivity. }
  assert (Ht : text = Str.strip value).
  { unfold coerce_scalar in H.
    destruct (Str.isdecimal _); [discriminate|].
    destruct (is_float _); [destruct (py_float _); discriminate|].
    destruct (is_true _); [discriminate|]. destruct (is_false _); [discriminate|].
    injection H as <-. reflexivity. }
  split; [exact Ht|]. rewrite Ht at 1. rewrite Hs, H. reflexivity.
Qed.

Lemma coerce_scalar_text_is_fixed_witness :
  "hello" = Str.strip " hello "
  /\ coerce_scalar float_of_zero "hello" = Return (PyStr "hello").
Proof. apply (coerce_scalar_text_is_fixed float_of_zero " hello " "hello"). reflexivity. Defined.

Lemma partition_empty sep : Str.is_empty sep = false -> Str.partition sep EmptyString = None.
Proof. destruct sep; [discriminate|reflexivity]. Qed.

Lemma split_fuel_S fuel sep s :
  Str.split_fuel (S fuel) sep None s
  = match Str.partition sep s with
    | None => [s]
    | Some (before, after) => before :: Str.split_fuel fuel sep None after
    end.
Proof. reflexivity. Qed.

Lemma partition_char_cons a c s :
  Str.partition (String a EmptyString) (String c s)
  = if Ascii.eqb a c then Some (EmptyString, s)
    else match Str.partition (String a EmptyString) s with
         | Some (before, after) => Some (String c before, after)
         | None => None
         end.
Proof.
  cbn [Str.partition Str.startswith]. destruct (Ascii.eqb a c); [|reflexivity].
  destruct s; reflexivity.
Qed.

Lemma split_nonempty_char a c s :
  Str.split_nonempty (String a EmptyString) None (String c s)
  = if Ascii.eqb a c then EmptyString :: Str.split_nonempty (String a EmptyString) None s
    else match Str.split_nonempty (String a EmptyString) None s with
         | x :: xs => String c x :: xs
         | [] => []
         end.
Proof.
  unfold Str.split_nonempty. cbn [String.length].
  rewrite split_fuel_S, partition_char_cons.
  destruct (Ascii.eqb a c); [reflexivity|].
  destruct (Str.partition (String a EmptyString) s) as [[before after]|] eqn:Hp.
  - destruct s as [|d s]; [discriminate Hp|].
    cbn [String.length]. rewrite (split_fuel_S _ _ (String d s)), Hp. f_equal.
    pose proof (partition_shorter (String a EmptyString) _ _ _ eq_refl Hp) as Hlt.
    cbn [String.length] in Hlt.
    apply split_fuel_enough; [reflexivity|lia|lia].
  - destruct s as [|d s]; [reflexivity|].
    cbn [String.length]. rewrite (split_fuel_S _ _ (String d s)), Hp. reflexivity.
Qed.

Lemma split_nonempty_not_nil sep maxsplit s : Str.split_nonempty sep maxsplit s <> [].
Proof.
  unfold Str.split_nonempty. destruct (String.length s); cbn [Str.split_fuel].
  - destruct maxsplit; discriminate.
  - destruct maxsplit as [[|m]|]; [discriminate| |];
      destruct (Str.partition sep s) as [[? ?]|]; discriminate.
Qed.

Lemma join_cons_char new c x xs :
  Str.join new (String c x :: xs) = String c (Str.join new (x :: xs)).
Proof. destruct xs; reflexivity. Qed.

(** [s.replace(a, new)] for a one-character [a] rewrites the text
    character by character. *)
Lemma replace_char a new s :
  Str.replace (String a EmptyString) new s = subst_char a new s.
Proof.
  unfold Str.replace. induction s as [|c s IH]; [reflexivity|].
  rewrite split_nonempty_char. cbn [subst_char].
  destruct (Ascii.eqb a c).
  - rewrite <- IH.
    destruct (Str.split_nonempty (String a EmptyString) None s) as [|x xs] eqn:E;
      [destruct (split_nonempty_not_nil _ _ _ E)|]. reflexivity.
  - rewrite <- IH.
    destruct (Str.split_nonempty (String a EmptyString) None s) as [|x xs] eqn:E;
      [destruct (split_nonempty_not_nil _ _ _ E)|]. apply join_cons_char.
Qed.

Lemma kebab_case_chars field : kebab_case field = map_chars kebab_char field.
Proof.
  unfold kebab_case. rewrite replace_char.
  induction field as [|c field IH]; [reflexivity|].
  cbn [Str.lower subst_char map_chars]. unfold kebab_char at 1.
  destruct (Ascii.eqb "_" (Str.lower_char c)); rewrite IH; reflexivity.
Qed.

Lemma kebab_char_facts c :
  kebab_char (kebab_char c) = kebab_char c
  /\ Ascii.eqb "_" (kebab_char c) = false
  /\ Str.lower_char (kebab_char c) = kebab_char c.
Proof. destruct c as [[] [] [] [] [] [] [] []]; repeat split; reflexivity. Qed.

(** X5. The result of [kebab_case] holds no underscore, [lower] leaves it
    as it is, and so does [kebab_case]: the result is a normal form. *)
Theorem kebab_case_normal_form (field : string) :
  Str.has_char "_" (kebab_case field) = false
  /\ Str.lower (kebab_case field) = kebab_case field
  /\ kebab_case (kebab_case field) = kebab_case field.
Proof.
  rewrite !kebab_case_chars. repeat split.
  - induction field as [|c field IH]; [reflexivity|].
    cbn [map_chars Str.has_char]. rewrite IH.
    destruct (kebab_char_facts c) as (_ & -> & _). reflexivity.
  - induction field as [|c field IH]; [reflexivity|].
    cbn [map_chars Str.lower]. rewrite IH.
    destruct (kebab_char_facts c) as (_ & _ & ->). reflexivity.
  - induction field as [|c field IH]; [reflexivity|].
    cbn [map_chars]. rewrite IH.
    destruct (kebab_char_facts c) as (-> & _). reflexivity.
Qed.

Lemma is_float_sign_run_witness : is_float ("+-" ++ "1.5") = is_float "1.5".
Proof. apply (is_float_sign_run "+-" "1.5"). reflexivity. Defined.

(** ** More on [split_comment] and [split_scalar] *)

Lemma startswith_drop s p :
  Str.startswith s p = true -> s = (p ++ Str.drop (String.length p) s)%string.
Proof.
  revert s. induction p as [|a p IH]; intros s H; [reflexivity|].
  destruct s as [|b s]; [discriminate|].
  cbn [Str.startswith] in H. apply andb_true_iff in H as [Hab H].
  apply Ascii.eqb_eq in Hab as ->.
  cbn [String.length Str.drop]. rewrite (IH s H) at 1. reflexivity.
Qed.

Lemma partition_glue sep s before after :
  Str.partition sep s = Some (before, after) -> s = (before ++ sep ++ after)%string.
Proof.
  revert before. induction s as [|c s IH]; intros before; cbn [Str.partition].
  - destruct (Str.startswith EmptyString sep) eqn:E; [|discriminate].
    intros [= <- <-]. apply (startswith_drop _ _ E).
  - destruct (Str.startswith (String c s) sep) eqn:E.
    + intros [= <- <-]. apply (startswith_drop _ _ E).
    + destruct (Str.partition sep s) as [[b a]|]; [|discriminate].
      intros [= <- <-]. rewrite (IH b eq_refl) at 1. reflexivity.
Qed.

Lemma partition_none_iff sep s : Str.partition sep s = None <-> Str.contains sep s = false.
Proof.
  induction s as [|c s IH]; cbn [Str.partition Str.contains].
  - destruct (Str.startswith EmptyString sep); cbn; split; congruence.
  - destruct (Str.startswith (String c s) sep); cbn [orb]; [split; discriminate|].
    rewrite <- IH. destruct (Str.partition sep s) as [[b a]|]; split; congruence.
Qed.

(** X6. For a separator that is not empty, [_split_in_2] returns two
    parts that give the text back when glued by the separator; the second
    part is [None] exactly when the separator does not occur. *)
Theorem split_in_2_glues_back (v sep : string) :
  sep <> EmptyString ->
  exists first second,
    _split_in_2 v sep = Return (first, second)
    /\ v = (first ++ match second with
                     | Some rest => sep ++ rest
                     | None => EmptyString
                     end)%string
    /\ (second = None <-> Str.contains sep v = false).
Proof.
  intros Hsep.
  assert (Hne : Str.is_empty sep = false) by (destruct sep; [contradiction|reflexivity]).
  unfold _split_in_2, str_split, Str.split_nonempty. rewrite Hne. cbn [bind].
  destruct v as [|c v].
  - exists EmptyString, None. cbn. repeat split.
    destruct sep; [discriminate|reflexivity].
  - cbn [String.length Str.split_fuel].
    destruct (Str.partition sep (String c v)) as [[before after]|] eqn:Hp.
    + exists before, (Some after). cbn [fmap option_fmap option_map].
      rewrite split_fuel_exhausted. cbn [head]. split; [reflexivity|split].
      * apply (partition_glue _ _ _ _ Hp).
      * split; [discriminate|]. intros Hc. apply partition_none_iff in Hc. congruence.
    + exists (String c v), None. split; [reflexivity|split].
      * clear. induction (String c v) as [|d s IH]; [reflexivity|].
        change (String d s ++ EmptyString)%string with (String d (s ++ EmptyString)%string).
        rewrite <- IH. reflexivity.
      * split; [intros _; apply partition_none_iff, Hp|reflexivity].
Qed.

Lemma split_in_2_glues_back_witness :
  exists first second,
    _split_in_2 "a=b=c" "=" = Return (first, second)
    /\ "a=b=c" = (first ++ match second with
                           | Some rest => "=" ++ rest
                           | None => EmptyString
                           end)%string
    /\ (second = None <-> Str.contains "=" "a=b=c" = false).
Proof. apply (split_in_2_glues_back "a=b=c" "="). discriminate. Defined.

Lemma strip_comment_stripped msg prefixes c :
  _strip_comment msg prefixes = Some c -> Str.strip c = c.
Proof.
  unfold _strip_comment. destruct msg as [msg|]; [|discriminate].
  destruct (Str.is_empty msg); [discriminate|].
  intros [= <-]. apply strip_idempotent.
Qed.

(** What [split_comment] passes to the coercion function and what it
    returns, branch by branch. *)
Lemma split_comment_cases {T} (value : string) (f : string -> outcome T)
    (comment_prefixes : string) :
  (exists t, Str.strip t = t
             /\ split_comment value f comment_prefixes
                = let* v := f t in Return (Commented.mk (Given v) None))
  \/ (exists c, split_comment value f comment_prefixes
                = Return (Commented.mk NOT_GIVEN (Some c)) /\ Str.strip c = c)
  \/ (exists t cmt, Str.strip t = t
                    /\ (forall c, cmt = Some c -> Str.strip c = c)
                    /\ split_comment value f comment_prefixes
                       = let* v := f t in Return (Commented.mk (Given v) cmt)).
Proof.
  unfold split_comment.
  destruct (List.filter _ (Str.chars comment_prefixes)) as [|p rest] eqn:Hf.
  { left. exists (Str.strip value). split; [apply strip_idempotent|reflexivity]. }
  cbn [orb]. destruct (1 <? _)%nat.
  { left. exists (Str.strip value). split; [apply strip_idempotent|reflexivity]. }
  destruct (existsb _ _) eqn:Hex.
  { right. left.
    destruct (_strip_comment (Some (Str.strip value)) comment_prefixes) as [c|] eqn:Hc.
    - exists c. split; [reflexivity|apply (strip_comment_stripped _ _ _ Hc)].
    - exfalso. unfold _strip_comment in Hc.
      apply existsb_exists in Hex as (q & _ & Hq).
      destruct (Str.strip value); [discriminate Hq|discriminate Hc]. }
  right. right.
  pose proof (filter_head _ _ _ _ Hf) as Hp. cbn beta in Hp.
  destruct (split_in_2_at_char p _ Hp) as (before & after & Hsplit & _ & _).
  rewrite Hsplit. cbn [bind].
  exists (Str.strip before), (_strip_comment (Some after) comment_prefixes).
  split; [apply strip_idempotent|split; [|reflexivity]].
  intros c Hc. apply (strip_comment_stripped _ _ _ Hc).
Qed.

Lemma split_comment_raise_cases {T} (value : string)
    (coerce_fn : string -> outcome T) (comment_prefixes : string) (e : exn) :
  split_comment value coerce_fn comment_prefixes = Raise e ->
  exists text, Str.strip text = text /\ coerce_fn text = Raise e.
Proof.
  destruct (split_comment_cases value coerce_fn comment_prefixes)
    as [(t & Ht & ->)|[(c & -> & _)|(t & cmt & Ht & _ & ->)]].
  - intros H. exists t. split; [exact Ht|].
    destruct (coerce_fn t); [discriminate|]. cbn [bind] in H. injection H as ->. reflexivity.
  - discriminate.
  - intros H. exists t. split; [exact Ht|].
    destruct (coerce_fn t); [discriminate|]. cbn [bind] in H. injection H as ->. reflexivity.
Qed.

(** X7. [split_comment] raises only what the coercion function raises,
    and that on a stripped text. *)
Theorem split_comment_raises_from_coerce {T} (value : string)
    (coerce_fn : string -> outcome T) (comment_prefixes : string) (e : exn) :
  split_comment value coerce_fn comment_prefixes = Raise e ->
  exists text, Str.strip text = text /\ coerce_fn text = Raise e.
Proof. apply split_comment_raise_cases. Qed.

Lemma split_comment_raises_from_coerce_witness :
  exists text, Str.strip text = text /\ coerce_bool text = Raise ValueError.
Proof.
  apply (split_comment_raises_from_coerce " maybe # sure" coerce_bool CP ValueError).
  reflexivity.
Defined.

(** X8. In what [split_comment] returns, a comment has no surrounding
    whitespace.  An entry without value has its [comment] attribute set:
    to the stripped line without its leading prefix characters, stripped
    again.  That text is empty for a line of prefix characters only, and
    [has_comment] holds for the entry exactly when it is not empty. *)
Theorem split_comment_result_shape {T} (value : string)
    (coerce_fn : string -> outcome T) (comment_prefixes : string)
    (entry : Commented.t T) :
  split_comment value coerce_fn comment_prefixes = Return entry ->
  (forall c, Commented.comment entry = Some c -> Str.strip c = c)
  /\ (Commented.comment_only entry = true ->
      Commented.comment entry
      = Some (Str.strip (Str.lstrip_chars comment_prefixes (Str.strip value)))
      /\ Commented.has_comment entry
         = negb (Str.is_empty
                   (Str.strip (Str.lstrip_chars comment_prefixes (Str.strip value))))).
Proof.
  intros H. split.
  - revert H.
    destruct (split_comment_cases value coerce_fn comment_prefixes)
      as [(t & Ht & ->)|[(c & -> & Hc)|(t & cmt & Ht & Hcmt & ->)]].
    + destruct (coerce_fn t); [|discriminate]. intros [= <-]. cbn. discriminate.
    + intros [= <-]. cbn. intros c' [= <-]. exact Hc.
    + destruct (coerce_fn t); [|discriminate]. intros [= <-]. cbn. exact Hcmt.
  - intros Honly.
    assert (Hentry : Commented.comment entry
                     = Some (Str.strip (Str.lstrip_chars comment_prefixes
                                          (Str.strip value)))).
    { revert H. unfold split_comment.
      destruct (match List.filter _ (Str.chars comment_prefixes) with
                | [] => true | _ => false end || _).
      { destruct (coerce_fn _); [|discriminate]. intros [= <-]. discriminate Honly. }
      destruct (existsb _ _) eqn:Hex.
      - intros [= <-]. cbn [Commented.comment]. unfold _strip_comment.
        apply existsb_exists in Hex as (q & _ & Hq).
        destruct (Str.strip value) as [|c s] eqn:Hs; [discriminate Hq|].
        cbn [Str.is_empty]. rewrite <- Hs, strip_idempotent. reflexivity.
      - destruct (List.filter _ (Str.chars comment_prefixes)); [discriminate|].
        destruct (_split_in_2 _ _) as [[before after]|]; [|discriminate].
        cbn [bind]. destruct (coerce_fn _); [|discriminate].
        intros [= <-]. discriminate Honly. }
    split; [exact Hentry|].
    unfold Commented.has_comment. rewrite Hentry. reflexivity.
Qed.

Lemma split_comment_result_shape_witness :
  (forall c, Commented.comment (@Commented.mk string NOT_GIVEN (Some "")) = Some c ->
             Str.strip c = c)
  /\ (Commented.comment_only (@Commented.mk string NOT_GIVEN (Some "")) = true ->
      Commented.comment (@Commented.mk string NOT_GIVEN (Some ""))
      = Some (Str.strip (Str.lstrip_chars CP (Str.strip " # ")))
      /\ Commented.has_comment (@Commented.mk string NOT_GIVEN (Some ""))
         = negb (Str.is_empty (Str.strip (Str.lstrip_chars CP (Str.strip " # "))))).
Proof.
  apply (split_comment_result_shape " # " (fun v => Return (noop v)) CP).
  reflexivity.
Defined.

(** X9. [split_comment] gives the same for a line and for the stripped
    line, and the coercion function is only applied to stripped texts. *)
Theorem split_comment_ignores_outer_whitespace {T} (value : string)
    (coerce_fn : string -> outcome T) (comment_prefixes : string) :
  split_comment (Str.strip value) coerce_fn comment_prefixes
  = split_comment value coerce_fn comment_prefixes
  /\ split_comment value (fun text => coerce_fn (Str.strip text)) comment_prefixes
     = split_comment value coerce_fn comment_prefixes.
Proof.
  split.
  - unfold split_comment. rewrite strip_idempotent. reflexivity.
  - apply split_comment_ext; intros; rewrite strip_idempotent; reflexivity.
Qed.

Lemma coerce_scalar_raises py_float value e :
  coerce_scalar py_float value = Raise e ->
  e = ValueError
  /\ is_float (Str.strip value) = true /\ py_float (Str.strip value) = None.
Proof.
  unfold coerce_scalar. destruct (Str.isdecimal _); [discriminate|].
  destruct (is_float _); [|destruct (is_true _); [discriminate|];
                            destruct (is_false _); discriminate].
  destruct (py_float _); [discriminate|]. intros [= <-]. repeat split.
Qed.

(** The text on which the coercion function has raised is the value that
    [split_comment] finds in the line. *)
Lemma split_comment_raise_text {T} (value : string)
    (coerce_fn : string -> outcome T) (comment_prefixes : string) (e : exn) :
  split_comment value coerce_fn comment_prefixes = Raise e ->
  exists text comment,
    split_comment value (fun part => Return part) comment_prefixes
    = Return (Commented.mk (Given text) comment)
    /\ Str.strip text = text /\ coerce_fn text = Raise e.
Proof.
  assert (Hraise : forall t k,
             (let* v := coerce_fn t in Return (k v)) = @Raise (Commented.t T) e ->
             coerce_fn t = Raise e).
  { intros t k H. destruct (coerce_fn t); [discriminate|].
    cbn [bind] in H. injection H as ->. reflexivity. }
  unfold split_comment.
  destruct (List.filter _ (Str.chars comment_prefixes)) as [|p rest] eqn:Hf.
  { cbn [orb bind]. intros H. do 2 eexists. split; [reflexivity|].
    split; [apply strip_idempotent|exact (Hraise _ _ H)]. }
  cbn [orb]. destruct (1 <? _)%nat.
  { cbn [bind]. intros H. do 2 eexists. split; [reflexivity|].
    split; [apply strip_idempotent|exact (Hraise _ _ H)]. }
  destruct (existsb _ _); [discriminate|].
  pose proof (filter_head _ _ _ _ Hf) as Hp. cbn beta in Hp.
  destruct (split_in_2_at_char p _ Hp) as (before & after & Hsplit & _ & _).
  rewrite Hsplit. cbn [bind]. intros H. do 2 eexists. split; [reflexivity|].
  split; [apply strip_idempotent|exact (Hraise _ _ H)].
Qed.

(** X10. [split_scalar] raises nothing but [ValueError], and only for a
    line whose value, as [split_comment] cuts it from the comment, is a
    text that [is_float] accepts; unless that text is made of decimal
    digits, which [int] converts, [float] rejects it. *)
Theorem split_scalar_raises
    (py_float : string -> option PrimFloat.float) (value comment_prefixes : string)
    (e : exn) :
  split_scalar py_float value comment_prefixes = Raise e ->
  e = ValueError
  /\ exists text comment,
       split_comment value (fun part => Return part) comment_prefixes
       = Return (Commented.mk (Given text) comment)
       /\ is_float text = true
       /\ (Str.isdecimal text = false -> py_float text = None).
Proof.
  unfold split_scalar. intros H.
  apply split_comment_raise_text in H as (text & comment & Hline & Hs & H).
  apply coerce_scalar_raises in H as (-> & Hf & Hp). rewrite Hs in Hf, Hp.
  split; [reflexivity|]. exists text, comment.
  split; [exact Hline|split; [exact Hf|intros _; exact Hp]].
Qed.

Lemma split_scalar_raises_witness :
  ValueError = ValueError
  /\ exists text comment,
       split_comment "+-1 # odd" (fun part => Return part) CP
       = Return (Commented.mk (Given text) comment)
       /\ is_float text = true
       /\ (Str.isdecimal text = false -> float_of_zero text = None).
Proof.
  apply (split_scalar_raises float_of_zero "+-1 # odd" CP ValueError). reflexivity.
Defined.

(** X11. On a text without comment prefix, [split_scalar] is
    [coerce_scalar] with no comment. *)
Theorem split_scalar_without_comment
    (py_float : string -> option PrimFloat.float) (value comment_prefixes : string) :
  (forall q, In q (Str.chars comment_prefixes) -> Str.has_char q (Str.strip value) = false) ->
  split_scalar py_float value comment_prefixes
  = let* x := coerce_scalar py_float value in Return (Commented.mk (Given x) None).
Proof.
  intros Hnone. unfold split_scalar, split_comment. rewrite (filter_none _ _ Hnone).
  cbn [orb]. unfold coerce_scalar. rewrite strip_idempotent. reflexivity.
Qed.

Lemma split_scalar_without_comment_witness :
  split_scalar float_of_zero " 42 " CP
  = let* x := coerce_scalar float_of_zero " 42 " in Return (Commented.mk (Given x) None).
Proof.
  apply (split_scalar_without_comment float_of_zero " 42 " CP).
  intros q [<-|[<-|[]]]; reflexivity.
Defined.

(** ** More on [split_list] and [split_kv_pairs] *)

Lemma lstrip_blank s : forallb Str.isspace (Str.chars s) = true -> Str.lstrip s = EmptyString.
Proof.
  induction s as [|c s IH]; [reflexivity|].
  cbn [Str.chars forallb Str.lstrip]. intros H. apply andb_true_iff in H as [-> H].
  exact (IH H).
Qed.

Lemma strip_blank s : forallb Str.isspace (Str.chars s) = true -> Str.strip s = EmptyString.
Proof. intros H. unfold Str.strip. rewrite (lstrip_blank s H). reflexivity. Qed.

(** X12. For a value of whitespace only, [split_list] and
    [split_kv_pairs] return no entry, whatever the separators and the
    coercion function; what they return becomes an empty single-line
    array and an empty inline table. *)
Theorem blank_value_gives_no_entry {T} (value sep key_sep pair_sep : string)
    (coerce_fn : string -> outcome T) (subsplit_dangling : bool)
    (comment_prefixes : string) :
  forallb Str.isspace (Str.chars value) = true ->
  split_list value sep coerce_fn subsplit_dangling comment_prefixes
  = Return (CommentedList.init [])
  /\ split_kv_pairs value key_sep coerce_fn pair_sep subsplit_dangling comment_prefixes
     = Return (CommentedKV.init [])
  /\ CommentedList.as_toml_obj (CommentedList.init (T := T) [])
     = Return (mkArray false [] None, CommentedList.init [])
  /\ CommentedKV.as_toml_obj (CommentedKV.init (T := T) [])
     = Return (mkTable true [] None, CommentedKV.init []).
Proof.
  intros H. unfold split_list, split_kv_pairs. rewrite (strip_blank value H).
  repeat split.
Qed.

Lemma blank_value_gives_no_entry_witness :
  split_list ("  " ++ newline) "" coerce_bool true CP = Return (CommentedList.init [])
  /\ split_kv_pairs ("  " ++ newline) "" coerce_bool "" true CP
     = Return (CommentedKV.init [])
  /\ CommentedList.as_toml_obj (CommentedList.init (T := bool) [])
     = Return (mkArray false [] None, CommentedList.init [])
  /\ CommentedKV.as_toml_obj (CommentedKV.init (T := bool) [])
     = Return (mkTable true [] None, CommentedKV.init []).
Proof.
  apply (blank_value_gives_no_entry ("  " ++ newline) "" "" "" coerce_bool true CP).
  reflexivity.
Defined.

Lemma subst_char_chars a s q :
  In q (Str.chars (subst_char a EmptyString s)) -> In q (Str.chars s) /\ q <> a.
Proof.
  induction s as [|c s IH]; [intros []|].
  cbn [subst_char]. destruct (Ascii.eqb a c) eqn:E.
  - change (EmptyString ++ subst_char a EmptyString s)%string
      with (subst_char a EmptyString s).
    intros H. destruct (IH H) as [H1 H2]. split; [right; exact H1|exact H2].
  - cbn [Str.chars]. intros [<-|H].
    + split; [left; reflexivity|]. intros ->. rewrite Ascii.eqb_refl in E. discriminate.
    + destruct (IH H) as [H1 H2]. split; [right; exact H1|exact H2].
Qed.

Lemma splitlines_has_char_bounded n q :
  forall s, String.length s <= n ->
  forall line, In line (Str.splitlines s) -> Str.has_char q line = true ->
  Str.has_char q s = true.
Proof.
  induction n as [|n IH]; intros s Hlen line Hin Hq.
  - destruct s; [destruct Hin|cbn in Hlen; lia].
  - destruct s as [|d s]; [destruct Hin|].
    cbn [String.length] in Hlen. cbn [Str.splitlines] in Hin. cbn [Str.has_char].
    destruct (Str.islinebreak d).
    + destruct Hin as [<-|Hin]; [discriminate Hq|].
      destruct s as [|e s]; [destruct Hin|].
      destruct (Ascii.eqb d Str.CR && Ascii.eqb e Str.LF).
      * cbn [String.length] in Hlen. cbn [Str.has_char].
        rewrite (IH s ltac:(lia) line Hin Hq), !orb_true_r. reflexivity.
      * rewrite (IH (String e s) ltac:(lia) line Hin Hq). apply orb_true_r.
    + destruct (Str.splitlines s) as [|l ls] eqn:Hs.
      * destruct Hin as [<-|[]]. cbn [Str.has_char] in Hq.
        rewrite orb_false_r in Hq. rewrite Hq. reflexivity.
      * destruct Hin as [<-|Hin].
        -- cbn [Str.has_char] in Hq. apply orb_true_iff in Hq as [->|Hq]; [reflexivity|].
           rewrite (IH s ltac:(lia) l); [apply orb_true_r|rewrite Hs; left; reflexivity|exact Hq].
        -- rewrite (IH s ltac:(lia) line); [apply orb_true_r|rewrite Hs; right; exact Hin|exact Hq].
Qed.

Lemma line_chars_from_value q value line :
  Str.has_char q value = false ->
  In line (Str.splitlines (Str.strip value)) ->
  Str.has_char q (Str.strip line) = false.
Proof.
  intros Hv Hin. apply has_char_strip.
  destruct (Str.has_char q line) eqn:E; [|reflexivity].
  apply (splitlines_has_char_bounded _ q _ (le_n _) _ Hin) in E.
  rewrite (has_char_strip _ _ Hv) in E. discriminate.
Qed.

(** X13. [split_list] takes a one-character separator out of the comment
    prefixes: when no other comment prefix occurs in the value, every
    entry has a value and no comment. *)
Theorem split_list_separator_is_no_prefix {T} (value : string) (sep : ascii)
    (g : string -> T) (subsplit_dangling : bool) (comment_prefixes : string) :
  (forall q, In q (Str.chars comment_prefixes) -> q <> sep ->
             Str.has_char q value = false) ->
  exists entries,
    split_list value (String sep EmptyString) (fun v => Return (g v))
      subsplit_dangling comment_prefixes
    = Return (CommentedList.init entries)
    /\ Forall (fun entry => Commented.comment entry = None
                            /\ Commented.comment_only entry = false) entries.
Proof.
  intros Hq. rewrite split_list_unfold, replace_char.
  set (sep' := if negb subsplit_dangling && _ then _ else _).
  assert (Hne : Str.is_empty sep' = false) by (subst sep'; destruct (_ && _); reflexivity).
  rewrite (mapM_ext_in _
             (fun line => Return (Commented.mk
                                    (Given (line_elements sep' g (Str.strip line))) None))).
  - rewrite mapM_pure. cbn [bind]. eexists. split; [reflexivity|].
    apply List.Forall_forall. intros entry Hin. apply in_map_iff in Hin as (line & <- & _).
    split; reflexivity.
  - intros line Hin.
    rewrite (split_comment_ext _ _ (fun part => Return (line_elements sep' g part)));
      [|apply _split_pure; exact Hne|intros; apply _split_pure; exact Hne].
    apply split_comment_no_prefix. intros q Hin'.
    apply subst_char_chars in Hin' as [Hin' Hneq].
    apply (line_chars_from_value _ value); [apply Hq; assumption|exact Hin].
Qed.

Lemma split_list_separator_is_no_prefix_witness :
  exists entries,
    split_list "a ; b;c" (String ";" EmptyString) (fun v => Return (noop v)) true CP
    = Return (CommentedList.init entries)
    /\ Forall (fun entry => Commented.comment entry = None
                            /\ Commented.comment_only entry = false) entries.
Proof.
  apply (split_list_separator_is_no_prefix "a ; b;c" ";" (@noop string) true CP).
  intros q [<-|[<-|[]]] Hne; [reflexivity|contradiction].
Defined.

Lemma split_at_key key_sep item :
  Str.is_empty key_sep = false -> Str.contains key_sep item = true ->
  exists k v, Str.partition key_sep item = Some (k, v)
              /\ str_split item key_sep (Some 1) = Return [k; v].
Proof.
  intros Hne Hc. unfold str_split, Str.split_nonempty. rewrite Hne.
  destruct (Str.partition key_sep item) as [[k v]|] eqn:Hp;
    [|apply partition_none_iff in Hp; congruence].
  exists k, v. split; [reflexivity|].
  destruct item as [|c item]; [rewrite partition_empty in Hp by exact Hne; discriminate|].
  cbn [String.length Str.split_fuel]. rewrite Hp. cbn [fmap option_fmap option_map].
  rewrite split_fuel_exhausted. reflexivity.
Qed.

Lemma _split_kv_pure {T} (key_sep pair_sep : string) (g : string -> T) (line : string) :
  Str.is_empty key_sep = false -> Str.is_empty pair_sep = false ->
  _split_kv key_sep pair_sep (fun v => Return (g v)) line
  = Return (line_pairs key_sep pair_sep g line).
Proof.
  intros Hk Hp. unfold _split_kv, str_split at 1, line_pairs. rewrite Hp. cbn [bind].
  induction (Str.split_nonempty pair_sep None (Str.strip line)) as [|item items IH];
    [reflexivity|].
  cbn [List.filter flat_map].
  destruct (Str.contains key_sep item) eqn:Hc.
  - destruct (split_at_key key_sep item Hk Hc) as (k & v & Hpart & Hsplit).
    cbn [mapM]. rewrite Hsplit, Hpart. cbn [bind]. rewrite IH. reflexivity.
  - rewrite (proj2 (partition_none_iff key_sep item) Hc). exact IH.
Qed.

(** The separator extended by a line feed is not found in a text without
    line feed: the stripped text is the only item. *)
Lemma line_pairs_sentinel {T} (key_sep pair_sep : string) (g : string -> T)
    (part : string) :
  Str.has_char Str.LF part = false ->
  line_pairs key_sep (pair_sep ++ newline) g part = whole_pair key_sep g part.
Proof.
  intros Hpart. apply has_char_strip in Hpart.
  unfold line_pairs, whole_pair, Str.split_nonempty.
  destruct (Str.strip part) as [|c s]; cbn [String.length Str.split_fuel flat_map].
  - rewrite app_nil_r. reflexivity.
  - rewrite (partition_not_found _ _ Str.LF); [cbn [flat_map]; apply app_nil_r| |exact Hpart].
    unfold newline. rewrite has_char_app. cbn [Str.has_char].
    rewrite Ascii.eqb_refl. apply orb_true_r.
Qed.

Lemma split_comment_lines {A T} (f : string -> outcome T) (h : string -> T)
    (comment_prefixes : string) (lines : list string) (init : list (Commented.t T) -> A) :
  (forall line, In line lines ->
                split_comment line f comment_prefixes
                = split_comment line (fun part => Return (h part)) comment_prefixes) ->
  exists entries,
    (let* entries := mapM (fun v => split_comment v f comment_prefixes) lines in
     Return (init entries)) = Return (init entries)
    /\ length entries = length lines
    /\ Forall2
         (fun line entry =>
            split_comment line (fun part => Return (h part)) comment_prefixes
            = Return entry)
         lines entries.
Proof.
  intros Hsame.
  destruct (mapM_returns (fun v => split_comment v f comment_prefixes) lines)
    as (entries & Hrun & Hall).
  { intros line Hin.
    destruct (split_comment_returns line h comment_prefixes) as [entry Hentry].
    exists entry. rewrite <- Hentry. apply Hsame, Hin. }
  exists entries. rewrite Hrun. split; [reflexivity|].
  split; [symmetry; exact (Forall2_length _ _ _ Hall)|].
  apply (Forall2_impl_in _ _ _ _ Hall). intros line entry Hin Hentry.
  rewrite <- Hentry. symmetry. apply Hsame, Hin.
Qed.

(** X15. For separators that are not empty and a conversion that does
    not raise, [split_kv_pairs] returns one entry for each physical line
    of the stripped input.  The pairs of a line are its items that hold
    [key_sep], each cut at the first [key_sep], with the key stripped and
    the stripped value converted; the other items are dropped.  The items
    of a line are its pieces between [pair_sep]; with [subsplit_dangling]
    off and more than one line, the line is not cut and is the only
    item. *)
Theorem split_kv_pairs_entries {T} (value key_sep pair_sep : string) (g : string -> T)
    (subsplit_dangling : bool) (comment_prefixes : string) :
  key_sep <> EmptyString -> pair_sep <> EmptyString ->
  exists entries,
    split_kv_pairs value key_sep (fun v => Return (g v)) pair_sep subsplit_dangling
      comment_prefixes
    = Return (CommentedKV.init entries)
    /\ length entries = length (Str.splitlines (Str.strip value))
    /\ Forall2
         (fun line entry =>
            split_comment line
              (fun part =>
                 Return (if negb subsplit_dangling
                            && (1 <? length (Str.splitlines (Str.strip value)))%nat
                         then whole_pair key_sep g part
                         else line_pairs key_sep pair_sep g part))
              (Str.replace pair_sep "" (Str.replace key_sep "" comment_prefixes))
            = Return entry)
         (Str.splitlines (Str.strip value)) entries.
Proof.
  intros Hk Hp.
  assert (Hk' : Str.is_empty key_sep = false) by (destruct key_sep; [contradiction|reflexivity]).
  assert (Hp' : Str.is_empty pair_sep = false) by (destruct pair_sep; [contradiction|reflexivity]).
  unfold split_kv_pairs.
  destruct (negb subsplit_dangling && _).
  - apply split_comment_lines. intros line Hin.
    pose proof (has_char_strip _ _ (splitlines_no_LF _ _ Hin)) as Hline.
    apply split_comment_ext.
    + rewrite _split_kv_pure by (exact Hk' || apply append_nonempty).
      rewrite line_pairs_sentinel by exact Hline. reflexivity.
    + intros before p after Hs.
      rewrite _split_kv_pure by (exact Hk' || apply append_nonempty).
      rewrite line_pairs_sentinel; [reflexivity|]. apply has_char_strip.
      rewrite Hs, has_char_app in Hline. apply orb_false_iff in Hline as [Hline _].
      exact Hline.
  - apply split_comment_lines. intros line _.
    apply split_comment_ext; intros; apply _split_kv_pure; assumption.
Qed.

Lemma split_kv_pairs_entries_witness :
  exists entries,
    split_kv_pairs ("a=1,b=2 # note" ++ newline ++ "c=3") "=" (fun v => Return (noop v))
      "," false CP
    = Return (CommentedKV.init entries)
    /\ length entries
       = length (Str.splitlines (Str.strip ("a=1,b=2 # note" ++ newline ++ "c=3")))
    /\ Forall2
         (fun line entry =>
            split_comment line
              (fun part =>
                 Return (if negb false
                            && (1 <? length
                                       (Str.splitlines
                                          (Str.strip
                                             ("a=1,b=2 # note" ++ newline ++ "c=3"))))%nat
                         then whole_pair "=" noop part
                         else line_pairs "=" "," noop part))
              (Str.replace "," "" (Str.replace "=" "" CP))
            = Return entry)
         (Str.splitlines (Str.strip ("a=1,b=2 # note" ++ newline ++ "c=3"))) entries.
Proof.
  apply (split_kv_pairs_entries ("a=1,b=2 # note" ++ newline ++ "c=3") "=" ","
           (@noop string) false CP); discriminate.
Defined.

Lemma interleave_empty s : Str.interleave EmptyString s = s.
Proof.
  induction s as [|c s IH]; [reflexivity|].
  cbn [Str.interleave]. rewrite IH. reflexivity.
Qed.

Lemma splitlines_nil s : Str.splitlines s = [] -> s = EmptyString.
Proof.
  destruct s as [|c s]; [reflexivity|]. cbn [Str.splitlines].
  destruct (Str.islinebreak c); [discriminate|].
  destruct (Str.splitlines s); discriminate.
Qed.

(** X14. With an empty separator and [subsplit_dangling] on, [split_list]
    raises [ValueError] on every value that is not blank and holds no
    comment prefix. *)
Theorem split_list_empty_separator {T} (value : string)
    (coerce_fn : string -> outcome T) (comment_prefixes : string) :
  Str.strip value <> EmptyString ->
  (forall q, In q (Str.chars comment_prefixes) -> Str.has_char q value = false) ->
  split_list value "" coerce_fn true comment_prefixes = Raise ValueError.
Proof.
  intros Hne Hq. rewrite split_list_unfold. cbn [negb andb].
  change (Str.replace "" "" comment_prefixes) with (Str.interleave "" comment_prefixes).
  rewrite interleave_empty.
  destruct (Str.splitlines (Str.strip value)) as [|line lines] eqn:Hl;
    [destruct (Hne (splitlines_nil _ Hl))|].
  cbn [mapM].
  assert (Hline : split_comment line (_split "" coerce_fn) comment_prefixes
                  = Raise ValueError).
  { unfold split_comment. rewrite filter_none; [reflexivity|].
    intros q Hin. apply (line_chars_from_value q value); [apply Hq, Hin|].
    rewrite Hl. left. reflexivity. }
  rewrite Hline. reflexivity.
Qed.

Lemma split_list_empty_separator_witness :
  split_list "a,b" "" (fun v => Return (noop v)) true CP = Raise ValueError.
Proof.
  apply (split_list_empty_separator "a,b" (fun v => Return (noop v)) CP);
    [discriminate|intros q [<-|[<-|[]]]; reflexivity].
Defined.

(** ** More on materialization *)

Lemma array_values_app {T} (l1 l2 : list (Item T)) :
  array_values (l1 ++ l2) = array_values l1 ++ array_values l2.
Proof. apply flat_map_app. Qed.

Lemma array_values_items {T} (values : list T) : array_values (map item values) = values.
Proof. induction values as [|v values IH]; [reflexivity|]. cbn. f_equal. exact IH. Qed.

Lemma array_values_last_commented {T} cmt (values : list T) :
  array_values (items_last_commented cmt values) = values.
Proof.
  induction values as [|v values IH]; [reflexivity|].
  destruct values as [|w values]; [reflexivity|].
  change (items_last_commented cmt (v :: w :: values))
    with (item v :: items_last_commented cmt (w :: values)).
  cbn [array_values flat_map item app]. f_equal. exact IH.
Qed.

Lemma array_values_entry {T} (entry : Commented.t (list T)) :
  array_values (entry_elements entry) = Commented.value_or entry [].
Proof.
  unfold entry_elements.
  destruct (Commented.has_comment entry), (Commented.comment entry);
    first [apply array_values_last_commented | apply array_values_items].
Qed.

(** X16. [CommentedList.as_toml_obj] returns an array whose elements,
    full-line comments apart, hold the values of all the entries, in
    their order. *)
Theorem commented_list_keeps_values {T} (self : CommentedList.t T) :
  exists out self',
    CommentedList.as_toml_obj self = Return (out, self')
    /\ array_values (arr_body out) = all_values (CommentedList.data self).
Proof.
  destruct self as [data self_comment]. unfold CommentedList.as_toml_obj, all_values.
  cbn [CommentedList.data CommentedList.comment].
  destruct data as [|entry [|entry' data]].
  - do 2 eexists. split; reflexivity.
  - cbn [length Nat.ltb Nat.leb CommentedList.as_toml_obj_loop]. rewrite append_values.
    destruct (Commented.has_comment entry), (Commented.comment entry) as [cmt|];
      cbn [negb bind]; do 2 eexists; (split; [reflexivity|]);
      cbn [arr_multiline arr_body arr_comment array_multiline array array_comment
           map concat app]; rewrite app_nil_r; apply array_values_items.
  - change (1 <? length (entry :: entry' :: data))%nat with true.
    rewrite commented_list_loop_multiline. cbn [bind].
    do 2 eexists. split; [reflexivity|].
    cbn [arr_body array_multiline array app].
    induction (entry :: entry' :: data) as [|e l IH]; [reflexivity|].
    cbn [map concat]. rewrite array_values_app, array_values_entry, IH. reflexivity.
Qed.

Lemma set_pairs_last_key {T} (out out' : Table T) (values : list (string * T)) k :
  CommentedKV.set_pairs out values = (out', Some k) ->
  exists it, table_getitem out' k = Some it.
Proof.
  destruct values as [|p values] using rev_ind; [discriminate|].
  destruct p as [k1 v1]. rewrite set_pairs_snoc. intros [= <- <-].
  eexists. rewrite table_getitem_setitem, String.eqb_refl. reflexivity.
Qed.

Lemma commented_kv_loop_returns {T} (multiline : bool)
    (entries : list (Commented.t (list (string * T)))) :
  forall (out : Table T) (self_comment : option string),
  exists out' self_comment',
    CommentedKV.as_toml_obj_loop multiline entries out self_comment
    = Return (out', self_comment')
    /\ tbl_inline out' = tbl_inline out.
Proof.
  induction entries as [|entry entries IH]; intros out self_comment.
  - do 2 eexists. split; reflexivity.
  - cbn [CommentedKV.as_toml_obj_loop].
    destruct (CommentedKV.set_pairs out (Commented.value_or entry [])) as [out1 k] eqn:Hset.
    assert (Hin : tbl_inline out1 = tbl_inline out).
    { assert (H : forall values (t : Table T) ko,
                 tbl_inline (fst (fold_left
                    (fun '(out, _) '(k, v) => (table_setitem out k (item v), Some k))
                    values (t, ko))) = tbl_inline t).
      { induction values as [|[k1 v1] values IHv]; intros t ko; [reflexivity|].
        cbn [fold_left]. rewrite IHv. reflexivity. }
      specialize (H (Commented.value_or entry []) out None).
      unfold CommentedKV.set_pairs in Hset. rewrite Hset in H. exact H. }
    destruct (Commented.has_comment entry), (Commented.comment entry) as [cmt|];
      try (destruct (IH out1 self_comment) as (o & c & -> & Ho);
           do 2 eexists; split; [reflexivity|congruence]).
    destruct multiline; cbn [negb].
    + destruct k as [k|]; cbn [CommentedKV.key_truthy].
      * destruct (negb (Str.is_empty k)).
        -- destruct (set_pairs_last_key _ _ _ _ Hset) as [it Hit].
           unfold CommentedKV.comment_at. rewrite Hit. cbn [bind].
           destruct (IH (table_setitem out1 k (item_comment it cmt)) self_comment)
             as (o & c & -> & Ho).
           do 2 eexists; split; [reflexivity|]. rewrite Ho. exact Hin.
        -- destruct (IH (table_append out1 (toml_adapter.comment cmt)) self_comment)
             as (o & c & -> & Ho).
           do 2 eexists; split; [reflexivity|]. rewrite Ho. exact Hin.
      * destruct (IH (table_append out1 (toml_adapter.comment cmt)) self_comment)
          as (o & c & -> & Ho).
        do 2 eexists; split; [reflexivity|]. rewrite Ho. exact Hin.
    + do 2 eexists. split; [reflexivity|exact Hin].
Qed.

(** X17. [CommentedKV.as_toml_obj] always returns, leaves the entries as
    they are, and gives a table that is not inline exactly when there is
    more than one entry: the lookup [out[k]] that places a comment never
    fails. *)
Theorem commented_kv_as_toml_obj_returns {T} (self : CommentedKV.t T) :
  exists out self',
    CommentedKV.as_toml_obj self = Return (out, self')
    /\ CommentedKV.data self' = CommentedKV.data self
    /\ (tbl_inline out = false <-> 1 < length (CommentedKV.data self)).
Proof.
  unfold CommentedKV.as_toml_obj.
  destruct (commented_kv_loop_returns (1 <? length (CommentedKV.data self))%nat
              (CommentedKV.data self)
              (if (1 <? length (CommentedKV.data self))%nat then table else inline_table)
              (CommentedKV.comment self)) as (out & c & -> & Hin).
  do 2 eexists. split; [reflexivity|]. split; [reflexivity|].
  rewrite Hin. destruct (1 <? _)%nat eqn:E.
  - apply Nat.ltb_lt in E. split; [intros _; exact E|reflexivity].
  - apply Nat.ltb_ge in E. split; [discriminate|]. intros H. lia.
Qed.

Lemma find_app_or {A} (p : A -> bool) l1 l2 :
  find p (l1 ++ l2) = match find p l1 with Some x => Some x | None => find p l2 end.
Proof.
  induction l1 as [|x l1 IH]; [reflexivity|]. cbn. destruct (p x); [reflexivity|exact IH].
Qed.

Lemma last_pair_app {T} k (l1 l2 : list (string * T)) :
  last_pair k (l1 ++ l2)
  = match last_pair k l2 with Some kv => Some kv | None => last_pair k l1 end.
Proof. unfold last_pair. rewrite rev_app_distr. apply find_app_or. Qed.

Lemma table_value_set_pairs {T} (out : Table T) values k :
  table_value (fst (CommentedKV.set_pairs out values)) k
  = match last_pair k values with
    | Some kv => Some (snd kv)
    | None => table_value out k
    end.
Proof.
  unfold table_value, last_pair. rewrite set_pairs_last_write_wins.
  destruct (find _ (rev values)); reflexivity.
Qed.

Lemma table_value_comment_at {T} (t : Table T) k it cmt k' :
  table_getitem t k = Some it ->
  table_value (table_setitem t k (item_comment it cmt)) k' = table_value t k'.
Proof.
  intros Hit. unfold table_value. rewrite table_getitem_setitem.
  destruct (String.eqb k k') eqn:E; [|reflexivity].
  apply String.eqb_eq in E as <-. rewrite Hit. destruct it; reflexivity.
Qed.

Lemma table_value_append {T} (t : Table T) it k :
  table_value (table_append t it) k = table_value t k.
Proof.
  unfold table_value, table_getitem, table_append. cbn [tbl_body].
  rewrite find_app_or. destruct (find (is_key k) (tbl_body t)); reflexivity.
Qed.

Lemma commented_kv_loop_values {T} (entries : list (Commented.t (list (string * T)))) :
  forall (out : Table T) (self_comment : option string),
  exists out' self_comment',
    CommentedKV.as_toml_obj_loop true entries out self_comment
    = Return (out', self_comment')
    /\ forall k, table_value out' k
                 = match last_pair k (all_values entries) with
                   | Some kv => Some (snd kv)
                   | None => table_value out k
                   end.
Proof.
  induction entries as [|entry entries IH]; intros out self_comment.
  - do 2 eexists. split; reflexivity.
  - cbn [CommentedKV.as_toml_obj_loop negb].
    pose proof (table_value_set_pairs out (Commented.value_or entry [])) as Hval.
    destruct (CommentedKV.set_pairs out (Commented.value_or entry [])) as [out1 k1] eqn:Hset.
    cbn [fst] in Hval.
    assert (Hstep : forall out2,
               (forall k, table_value out2 k = table_value out1 k) ->
               exists out' c',
                 CommentedKV.as_toml_obj_loop true entries out2 self_comment
                 = Return (out', c')
                 /\ forall k, table_value out' k
                              = match last_pair k (all_values (entry :: entries)) with
                                | Some kv => Some (snd kv)
                                | None => table_value out k
                                end).
    { intros out2 Hsame. destruct (IH out2 self_comment) as (o & c & -> & Ho).
      do 2 eexists. split; [reflexivity|]. intros k. rewrite Ho.
      unfold all_values. cbn [map concat]. rewrite last_pair_app.
      fold (all_values entries). destruct (last_pair k (all_values entries)); [reflexivity|].
      rewrite Hsame. apply Hval. }
    destruct (Commented.has_comment entry), (Commented.comment entry) as [cmt|];
      try (apply Hstep; reflexivity).
    destruct k1 as [k1|]; cbn [CommentedKV.key_truthy].
    + destruct (negb (Str.is_empty k1)).
      * destruct (set_pairs_last_key _ _ _ _ Hset) as [it Hit].
        unfold CommentedKV.comment_at. rewrite Hit. cbn [bind].
        apply Hstep. intros k. apply table_value_comment_at, Hit.
      * apply Hstep. intros k. apply table_value_append.
    + apply Hstep. intros k. apply table_value_append.
Qed.

(** X18. Under every key, the table that [CommentedKV.as_toml_obj]
    returns holds the value of the last pair with that key among the
    pairs of all the entries, and nothing under a key of no pair. *)
Theorem commented_kv_last_write_wins {T} (self : CommentedKV.t T) (k : string) :
  exists out self',
    CommentedKV.as_toml_obj self = Return (out, self')
    /\ table_value out k = snd <$> last_pair k (all_values (CommentedKV.data self)).
Proof.
  destruct self as [data self_comment]. unfold CommentedKV.as_toml_obj.
  cbn [CommentedKV.data CommentedKV.comment].
  destruct data as [|entry [|entry' data]].
  - do 2 eexists. split; reflexivity.
  - cbn [length Nat.ltb Nat.leb CommentedKV.as_toml_obj_loop].
    pose proof (table_value_set_pairs (@inline_table T) (Commented.value_or entry []) k)
      as Hval.
    destruct (CommentedKV.set_pairs inline_table (Commented.value_or entry []))
      as [out1 k1].
    cbn [fst] in Hval.
    assert (Hgoal : table_value out1 k
                    = snd <$> last_pair k (all_values [entry])).
    { rewrite Hval. unfold all_values. cbn [map concat]. rewrite app_nil_r.
      destruct (last_pair k _); reflexivity. }
    destruct (Commented.has_comment entry), (Commented.comment entry) as [cmt|];
      cbn [negb bind]; do 2 eexists; (split; [reflexivity|exact Hgoal]).
  - change (1 <? length (entry :: entry' :: data))%nat with true. cbn match.
    destruct (commented_kv_loop_values (entry :: entry' :: data) table self_comment)
      as (out & c & -> & Ho).
    do 2 eexists. split; [reflexivity|]. rewrite Ho.
    destruct (last_pair k _); reflexivity.
Qed.

(** ** More on the appliers *)

Lemma commented_list_loop_comment {T} (multiline : bool)
    (entries : list (Commented.t (list T))) :
  forall (out : Array T) (self_comment : option string),
  exists out' self_comment',
    CommentedList.as_toml_obj_loop multiline entries out self_comment
    = Return (out', self_comment')
    /\ ((self_comment' = self_comment /\ arr_comment out' = arr_comment out)
        \/ exists cmt, self_comment' = Some cmt /\ arr_comment out' = Some cmt).
Proof.
  induction entries as [|entry entries IH]; intros out self_comment.
  - do 2 eexists. split; [reflexivity|left; split; reflexivity].
  - cbn [CommentedList.as_toml_obj_loop]. rewrite append_values.
    set (out1 := mkArray _ _ _).
    assert (Hpass : forall out2, arr_comment out2 = arr_comment out ->
               exists out' c',
                 CommentedList.as_toml_obj_loop multiline entries out2 self_comment
                 = Return (out', c')
                 /\ ((c' = self_comment /\ arr_comment out' = arr_comment out)
                     \/ exists cmt, c' = Some cmt /\ arr_comment out' = Some cmt)).
    { intros out2 H2. destruct (IH out2 self_comment) as (o & c & -> & [[Hc Ho]|Hc]).
      - do 2 eexists. split; [reflexivity|left; split; congruence].
      - do 2 eexists. split; [reflexivity|right; exact Hc]. }
    destruct (Commented.has_comment entry), (Commented.comment entry) as [cmt|];
      try (apply Hpass; reflexivity).
    destruct multiline; cbn [negb].
    + destruct (Commented.value_or entry []) as [|v values] eqn:Hv.
      * cbn [length Nat.ltb Nat.leb]. apply Hpass. reflexivity.
      * cbn [length Nat.ltb Nat.leb]. subst out1.
        rewrite comment_last_item by discriminate. cbn [bind]. apply Hpass. reflexivity.
    + do 2 eexists. split; [reflexivity|]. right. exists cmt. split; reflexivity.
Qed.

Lemma commented_kv_loop_comment {T} (multiline : bool)
    (entries : list (Commented.t (list (string * T)))) :
  forall (out : Table T) (self_comment : option string),
  exists out' self_comment',
    CommentedKV.as_toml_obj_loop multiline entries out self_comment
    = Return (out', self_comment')
    /\ ((self_comment' = self_comment /\ tbl_comment out' = tbl_comment out)
        \/ exists cmt, self_comment' = Some cmt /\ tbl_comment out' = Some cmt).
Proof.
  induction entries as [|entry entries IH]; intros out self_comment.
  - do 2 eexists. split; [reflexivity|left; split; reflexivity].
  - cbn [CommentedKV.as_toml_obj_loop].
    destruct (CommentedKV.set_pairs out (Commented.value_or entry [])) as [out1 k] eqn:Hset.
    assert (Hin : tbl_comment out1 = tbl_comment out).
    { assert (H : forall values (t : Table T) ko,
                 tbl_comment (fst (fold_left
                    (fun '(out, _) '(k, v) => (table_setitem out k (item v), Some k))
                    values (t, ko))) = tbl_comment t).
      { induction values as [|[k1 v1] values IHv]; intros t ko; [reflexivity|].
        cbn [fold_left]. rewrite IHv. reflexivity. }
      specialize (H (Commented.value_or entry []) out None).
      unfold CommentedKV.set_pairs in Hset. rewrite Hset in H. exact H. }
    assert (Hpass : forall out2, tbl_comment out2 = tbl_comment out ->
               exists out' c',
                 CommentedKV.as_toml_obj_loop multiline entries out2 self_comment
                 = Return (out', c')
                 /\ ((c' = self_comment /\ tbl_comment out' = tbl_comment out)
                     \/ exists cmt, c' = Some cmt /\ tbl_comment out' = Some cmt)).
    { intros out2 H2. destruct (IH out2 self_comment) as (o & c & -> & [[Hc Ho]|Hc]).
      - do 2 eexists. split; [reflexivity|left; split; congruence].
      - do 2 eexists. split; [reflexivity|right; exact Hc]. }
    destruct (Commented.has_comment entry), (Commented.comment entry) as [cmt|];
      try (apply Hpass; exact Hin).
    destruct multiline; cbn [negb].
    + destruct k as [k|]; cbn [CommentedKV.key_truthy].
      * destruct (negb (Str.is_empty k)).
        -- destruct (set_pairs_last_key _ _ _ _ Hset) as [it Hit].
           unfold CommentedKV.comment_at. rewrite Hit. cbn [bind].
           apply Hpass. exact Hin.
        -- apply Hpass. exact Hin.
      * apply Hpass. exact Hin.
    + do 2 eexists. split; [reflexivity|]. right. exists cmt. split; reflexivity.
Qed.

Lemma call_as_toml_obj_returns (value : processed) :
  (forall v, value <> Plain v) ->
  exists obj value',
    call_as_toml_obj value = Return (obj, value')
    /\ (fresh value ->
        forall text, attr_comment value' = Some text -> node_comment obj text = Some obj).
Proof.
  intros Hrepr. destruct value as [v|c|c|c]; [destruct (Hrepr v); reflexivity| | |].
  - do 2 eexists. split; [reflexivity|]. intros _ text Htext.
    cbn [attr_comment] in Htext. cbn [node_comment]. unfold Commented.as_toml_obj, create_item.
    rewrite Htext. reflexivity.
  - cbn [call_as_toml_obj]. unfold CommentedList.as_toml_obj.
    destruct (commented_list_loop_comment
                (1 <? length (CommentedList.data c))%nat (CommentedList.data c)
                (array_multiline array (1 <? length (CommentedList.data c))%nat)
                (CommentedList.comment c)) as (out & sc & -> & Hc).
    cbn [bind]. do 2 eexists. split; [reflexivity|].
    cbn [fresh attr_comment CommentedList.comment]. intros Hfresh text ->.
    destruct Hc as [[Hc _]|(cmt & [= <-] & Ho)]; [congruence|].
    cbn [node_comment]. destruct out. cbn in Ho. subst. reflexivity.
  - cbn [call_as_toml_obj]. unfold CommentedKV.as_toml_obj.
    destruct (commented_kv_loop_comment
                (1 <? length (CommentedKV.data c))%nat (CommentedKV.data c)
                (if (1 <? length (CommentedKV.data c))%nat then table else inline_table)
                (CommentedKV.comment c)) as (out & sc & -> & Hc).
    cbn [bind]. do 2 eexists. split; [reflexivity|].
    cbn [fresh attr_comment CommentedKV.comment]. intros Hfresh text ->.
    destruct Hc as [[Hc _]|(cmt & [= <-] & Ho)]; [congruence|].
    cbn [node_comment]. destruct out. cbn in Ho. subst. reflexivity.
Qed.

Lemma add_to_container_shape (container : gmap string pyvalue) (field : string)
    (value : processed) :
  exists x, _add_to_container container field value = Return (<[field := x]> container).
Proof.
  destruct value as [v|c|c|c]; [eexists; reflexivity| | |].
  all: match goal with |- context [_add_to_container _ _ ?val] =>
         destruct (call_as_toml_obj_returns val ltac:(discriminate))
           as (obj & value' & Hcall & _);
         unfold _add_to_container; rewrite Hcall; cbn [bind]
       end.
  all: destruct (attr_comment value') as [text|]; [|eexists; reflexivity].
  all: destruct (node_comment obj text);
         [rewrite insert_insert_eq|]; eexists; reflexivity.
Qed.

(** X19. For a representation whose [comment] attribute is still [None],
    [_add_to_container] stores under [field] the node that [as_toml_obj]
    returns: repeating the comment changes nothing. *)
Theorem add_to_container_stores_node (container : gmap string pyvalue)
    (field : string) (value : processed) :
  fresh value ->
  exists obj value',
    call_as_toml_obj value = Return (obj, value')
    /\ _add_to_container container field value = Return (<[field := obj]> container).
Proof.
  intros Hfresh.
  assert (Hrepr : forall v, value <> Plain v) by (destruct value; [destruct Hfresh|..]; discriminate).
  destruct (call_as_toml_obj_returns value Hrepr) as (obj & value' & Hcall & Hsame).
  exists obj, value'. split; [exact Hcall|].
  unfold _add_to_container. destruct value as [v|c|c|c]; [destruct Hfresh|..];
    rewrite Hcall; cbn [bind];
    (destruct (attr_comment value') as [text|] eqn:Ha; [|reflexivity]);
    rewrite (Hsame Hfresh text eq_refl), insert_insert_eq; reflexivity.
Qed.

Lemma add_to_container_stores_node_witness :
  exists obj value',
    call_as_toml_obj
      (OfCommentedList (CommentedList.init [Commented.mk (Given [PyStr "a"]) (Some "note")]))
    = Return (obj, value')
    /\ _add_to_container ∅ "deps"
         (OfCommentedList
            (CommentedList.init [Commented.mk (Given [PyStr "a"]) (Some "note")]))
       = Return (<["deps" := obj]> ∅).
Proof.
  apply (add_to_container_stores_node ∅ "deps"
           (OfCommentedList
              (CommentedList.init [Commented.mk (Given [PyStr "a"]) (Some "note")]))).
  reflexivity.
Defined.

Lemma apply_raise_cases container field fn log e :
  apply container field fn log = Raise e ->
  (container !! field = None /\ e = KeyError)
  \/ exists value, container !! field = Some value
                   /\ fn value = Raise e /\ isinstance_Exception e = false.
Proof.
  unfold apply. destruct (container !! field) as [value|]; [|intros [= <-]; left; split; reflexivity].
  destruct (fn value) as [p|e'] eqn:Hfn.
  - destruct (add_to_container_shape container field p) as [x ->]. discriminate.
  - destruct (isinstance_Exception e') eqn:He; [discriminate|].
    intros [= <-]. right. exists value. repeat split; assumption.
Qed.

(** X20. When [apply] returns, the fields other than [field] hold what
    they held, [field] is in the container before and after, and either
    the log or the container is as it was. *)
Theorem apply_changes_one_field (container container' : gmap string pyvalue)
    (field : string) (fn : Transformation) (log log' : list LogRecord) :
  apply container field fn log = Return (container', log') ->
  (forall other, other <> field -> container' !! other = container !! other)
  /\ is_Some (container !! field) /\ is_Some (container' !! field)
  /\ (log' = log \/ container' = container).
Proof.
  unfold apply. destruct (container !! field) as [value|] eqn:Hfield; [|discriminate].
  destruct (fn value) as [p|e].
  - destruct (add_to_container_shape container field p) as [x ->]. cbn [bind].
    intros [= <- <-]. split; [|split; [|split]].
    + intros other Hne. apply lookup_insert_ne. congruence.
    + eexists. reflexivity.
    + rewrite lookup_insert_eq. eexists. reflexivity.
    + left. reflexivity.
  - destruct (isinstance_Exception e); [|discriminate].
    intros [= <- <-]. split; [|split; [|split]].
    + reflexivity.
    + eexists. reflexivity.
    + rewrite Hfield. eexists. reflexivity.
    + right. reflexivity.
Qed.

Lemma apply_changes_one_field_witness :
  (forall other, other <> "deps" ->
      (<["deps" := PyList [PyStr "a"]]> {[ "deps" := PyStr "a" ]} : gmap string pyvalue)
        !! other
      = ({[ "deps" := PyStr "a" ]} : gmap string pyvalue) !! other)
  /\ is_Some (({[ "deps" := PyStr "a" ]} : gmap string pyvalue) !! "deps")
  /\ is_Some ((<["deps" := PyList [PyStr "a"]]> {[ "deps" := PyStr "a" ]}
               : gmap string pyvalue) !! "deps")
  /\ (@nil LogRecord = [] \/
      (<["deps" := PyList [PyStr "a"]]> {[ "deps" := PyStr "a" ]} : gmap string pyvalue)
      = {[ "deps" := PyStr "a" ]}).
Proof.
  apply (apply_changes_one_field {[ "deps" := PyStr "a" ]} _ "deps"
           (fun v => Return (Plain (PyList [v]))) [] []).
  unfold apply. rewrite lookup_singleton_eq. reflexivity.
Defined.

(** X21. [apply] raises only [KeyError], for a field that the container
    does not hold, or what the transformation raises that is not an
    [Exception]; materialization never raises. *)
Theorem apply_raises_only (container : gmap string pyvalue) (field : string)
    (fn : Transformation) (log : list LogRecord) (e : exn) :
  apply container field fn log = Raise e ->
  (container !! field = None /\ e = KeyError)
  \/ exists value, container !! field = Some value
                   /\ fn value = Raise e /\ isinstance_Exception e = false.
Proof. apply apply_raise_cases. Qed.

Lemma apply_raises_only_witness :
  (({[ "deps" := PyStr "a" ]} : gmap string pyvalue) !! "deps" = None
   /\ KeyboardInterrupt = KeyError)
  \/ exists value, ({[ "deps" := PyStr "a" ]} : gmap string pyvalue) !! "deps" = Some value
                   /\ (fun _ : pyvalue => @Raise processed KeyboardInterrupt) value
                      = Raise KeyboardInterrupt
                   /\ isinstance_Exception KeyboardInterrupt = false.
Proof.
  apply (apply_raises_only {[ "deps" := PyStr "a" ]} "deps"
           (fun _ => Raise KeyboardInterrupt) [] KeyboardInterrupt).
  unfold apply. rewrite lookup_singleton_eq. reflexivity.
Defined.

Lemma truthy_dict_lookup (d : gmap string pyvalue) k v :
  d !! k = Some v -> truthy (PyDict d) = true.
Proof.
  intros H. cbn [truthy]. destruct (map_to_list d) eqn:E; [|reflexivity].
  apply map_to_list_empty_iff in E. subst d. rewrite lookup_empty in H. discriminate.
Qed.

Lemma falsy_dict_lookup (d : gmap string pyvalue) k :
  truthy (PyDict d) = false -> d !! k = None.
Proof.
  destruct (d !! k) eqn:E; [|reflexivity].
  rewrite (truthy_dict_lookup d k _ E). discriminate.
Qed.

Lemma resolves_dict_inv c k ks v :
  resolves (PyDict c) (k :: ks) v -> exists x, c !! k = Some x /\ resolves x ks v.
Proof. inversion 1; subst. eauto. Qed.

Lemma resolves_nil_inv m v : resolves m [] v -> v = m.
Proof. inversion 1; reflexivity. Qed.

Lemma set_nested_same parent :
  forall c d, resolves (PyDict c) parent (PyDict d) -> set_nested c parent d = c.
Proof.
  induction parent as [|k ks IH]; intros c d H.
  - apply resolves_nil_inv in H. injection H as ->. reflexivity.
  - apply resolves_dict_inv in H as (x & Hk & Hx). cbn [set_nested]. rewrite Hk.
    destruct ks as [|k' ks'].
    + apply resolves_nil_inv in Hx. subst x. cbn [set_nested]. apply insert_id, Hk.
    + destruct x; try (inversion Hx; fail).
      rewrite (IH _ _ Hx). apply insert_id, Hk.
Qed.

Lemma set_nested_resolves parent :
  forall c d d', resolves (PyDict c) parent (PyDict d) ->
                 resolves (PyDict (set_nested c parent d')) parent (PyDict d').
Proof.
  induction parent as [|k ks IH]; intros c d d' H.
  - constructor.
  - apply resolves_dict_inv in H as (x & Hk & Hx). cbn [set_nested]. rewrite Hk.
    assert (Hd : exists m, x = PyDict m).
    { destruct ks; [apply resolves_nil_inv in Hx; eauto|]. inversion Hx; eauto. }
    destruct Hd as [m ->].
    eapply resolves_step; [apply lookup_insert_eq|]. apply (IH _ _ _ Hx).
Qed.

Lemma set_nested_other k ks c d' other :
  other <> k -> set_nested c (k :: ks) d' !! other = c !! other.
Proof.
  intros Hne. cbn [set_nested]. destruct (c !! k) as [[]|]; try reflexivity.
  apply lookup_insert_ne. congruence.
Qed.

Lemma apply_nested_delegates container parent last nested fn log v :
  resolves (PyDict container) parent (PyDict nested) ->
  nested !! last = Some v ->
  apply_nested container (parent ++ [last]) fn log
  = let* result := apply nested last fn log in
    Return (set_nested container parent (fst result), snd result).
Proof.
  intros Hres Hlast. unfold apply_nested.
  rewrite unpack_last_snoc, (get_nested_resolves _ _ _ PyNone Hres).
  rewrite (truthy_dict_lookup _ _ _ Hlast). cbn [negb isinstance_MutableMapping].
  rewrite Hlast. destruct (apply nested last fn log) as [[n l]|]; reflexivity.
Qed.

(** X23. When the path leads to a field of a nested mapping and the
    transformation raises an [Exception] on its value, [apply_nested]
    returns the whole container as it was, with the warning and the debug
    record logged. *)
Theorem apply_nested_contains_failure
    (container nested : gmap string pyvalue) (parent : list string) (last : string)
    (fn : Transformation) (log : list LogRecord) (value : pyvalue) (e : exn) :
  resolves (PyDict container) parent (PyDict nested) ->
  nested !! last = Some value ->
  fn value = Raise e ->
  isinstance_Exception e = true ->
  apply_nested container (parent ++ [last]) fn log
  = Return (container,
            log ++ [mkLogRecord WARNING (impossible_to_transform value) false;
                    mkLogRecord DEBUG [Lit "Please check the following details"] true]).
Proof.
  intros Hres Hlast Hfn He.
  rewrite (apply_nested_delegates _ _ _ _ _ _ _ Hres Hlast).
  unfold apply. rewrite Hlast, Hfn, He. cbn [bind fst snd].
  rewrite (set_nested_same _ _ _ Hres), <- app_assoc. reflexivity.
Qed.

(** X24. When [apply] returns on the nested mapping, [apply_nested]
    returns a container in which the path leads to the mapping that
    [apply] returned, with the same log; the top-level keys other than
    the first segment hold what they held. *)
Theorem apply_nested_writes_back
    (container nested nested' : gmap string pyvalue) (parent : list string)
    (last : string) (fn : Transformation) (log log' : list LogRecord) :
  resolves (PyDict container) parent (PyDict nested) ->
  apply nested last fn log = Return (nested', log') ->
  exists container',
    apply_nested container (parent ++ [last]) fn log = Return (container', log')
    /\ resolves (PyDict container') parent (PyDict nested')
    /\ forall k ks other, parent = k :: ks -> other <> k ->
                          container' !! other = container !! other.
Proof.
  intros Hres Happly.
  assert (Hlast : exists v, nested !! last = Some v).
  { unfold apply in Happly. destruct (nested !! last); [eauto|discriminate]. }
  destruct Hlast as [v Hlast].
  exists (set_nested container parent nested').
  rewrite (apply_nested_delegates _ _ _ _ _ _ _ Hres Hlast), Happly.
  split; [reflexivity|]. split; [apply (set_nested_resolves _ _ _ _ Hres)|].
  intros k ks other -> Hne. apply set_nested_other, Hne.
Qed.

(** X22. With a path of one segment, [apply_nested] is [apply] on that
    field when the container holds it, and returns the container as it
    is when it does not, where [apply] raises [KeyError]. *)
Theorem apply_nested_single_segment
    (container : gmap string pyvalue) (last : string)
    (fn : Transformation) (log : list LogRecord) :
  apply_nested container [last] fn log
  = match container !! last with
    | Some _ => apply container last fn log
    | None => Return (container, log)
    end.
Proof.
  unfold apply_nested. cbn [unpack_last get_nested].
  destruct (truthy (PyDict container)) eqn:Ht; cbn [negb].
  - cbn [isinstance_MutableMapping negb].
    destruct (container !! last); [|reflexivity].
    destruct (apply container last fn log) as [[n l]|]; reflexivity.
  - rewrite (falsy_dict_lookup _ last Ht). reflexivity.
Qed.


Lemma apply_nested_contains_failure_witness :
  apply_nested {[ "tool" := PyDict {[ "name" := PyStr "x" ]} ]} (["tool"] ++ ["name"])
    (fun _ => Raise ValueError) []
  = Return ({[ "tool" := PyDict {[ "name" := PyStr "x" ]} ]},
            [] ++ [mkLogRecord WARNING (impossible_to_transform (PyStr "x")) false;
                   mkLogRecord DEBUG [Lit "Please check the following details"] true]).
Proof.
  apply (apply_nested_contains_failure
           {[ "tool" := PyDict {[ "name" := PyStr "x" ]} ]} {[ "name" := PyStr "x" ]}
           ["tool"] "name" (fun _ => Raise ValueError) [] (PyStr "x") ValueError);
    [|apply lookup_singleton_eq|reflexivity|reflexivity].
  eapply resolves_step; [apply lookup_singleton_eq|constructor].
Defined.

Lemma apply_nested_writes_back_witness :
  exists container',
    apply_nested {[ "tool" := PyDict {[ "name" := PyStr "x" ]} ]} (["tool"] ++ ["name"])
      (fun _ => Return (Plain (PyStr "y"))) []
    = Return (container', [])
    /\ resolves (PyDict container') ["tool"]
         (PyDict (<["name" := PyStr "y"]> {[ "name" := PyStr "x" ]}))
    /\ forall k ks other, ["tool"] = k :: ks -> other <> k ->
         container' !! other
         = ({[ "tool" := PyDict {[ "name" := PyStr "x" ]} ]} : gmap string pyvalue) !! other.
Proof.
  apply (apply_nested_writes_back
           {[ "tool" := PyDict {[ "name" := PyStr "x" ]} ]} {[ "name" := PyStr "x" ]}
           (<["name" := PyStr "y"]> {[ "name" := PyStr "x" ]})
           ["tool"] "name" (fun _ => Return (Plain (PyStr "y"))) [] []).
  - eapply resolves_step; [apply lookup_singleton_eq|constructor].
  - unfold apply. rewrite lookup_singleton_eq. reflexivity.
Defined.

